(** * CLAHE (contrast limited adaptive histogram equalization)

    A shallow embedding of [applyCLAHE] from [src/clahe.h] and the
    properties of its four stages: per-tile histogram, clip and
    redistribute, cumulative distribution, bilinear reconstruction.

    Conventions of the embedding:
    - [int] values are integers of [Z]; every arithmetic operation of the
      source is followed by the 32-bit two's complement wrap-around;
    - [uint8_t] values are integers of [Z] in [0, 256);
    - [double] values are binary64 floats ([PrimFloat.float]);
    - a [std::vector] or an array is a [list Z]; an access outside its
      bounds has no defined result and is modelled by [None], which
      aborts the whole run;
    - a [for] loop is an iterated body in the option monad. *)

From Stdlib Require Import ZArith Lia Floats.
From stdpp Require Import base option list.

Local Open Scope Z_scope.

(** ** 32-bit signed integers *)

Definition INT_MIN : Z := - 2 ^ 31.
Definition INT_MAX : Z := 2 ^ 31 - 1.

Definition wrap32 (z : Z) : Z := (z + 2 ^ 31) mod 2 ^ 32 - 2 ^ 31.

Definition iadd (a b : Z) : Z := wrap32 (a + b).
Definition isub (a b : Z) : Z := wrap32 (a - b).
Definition imul (a b : Z) : Z := wrap32 (a * b).
(** C++ division truncates toward zero; the remainder has the sign of the
    dividend. *)
Definition idiv (a b : Z) : Z := wrap32 (Z.quot a b).
Definition irem (a b : Z) : Z := Z.rem a b.

Definition is_int (z : Z) : Prop := INT_MIN ≤ z ≤ INT_MAX.

(** [static_cast<uint8_t>] of an [int]. *)
Definition to_u8 (z : Z) : Z := z mod 256.

Definition is_u8 (z : Z) : Prop := 0 ≤ z < 256.

(** ** Doubles *)

(** [static_cast<double>] of an [int] (exact: 32 bits fit the mantissa). *)
Definition of_int (z : Z) : float :=
  if z <? 0 then PrimFloat.opp (PrimFloat.of_uint63 (Uint63.of_Z (- z)))
  else PrimFloat.of_uint63 (Uint63.of_Z z).

(** The integer part of a finite double, rounded toward zero. *)
Definition trunc (d : float) : option Z :=
  match Prim2SF d with
  | S754_zero _ => Some 0
  | S754_finite s m e =>
      let a := if 0 <=? e then Z.pos m * 2 ^ e else Z.pos m / 2 ^ (- e) in
      Some (if s then - a else a)
  | _ => None
  end.

(** [static_cast<int>] of a [double]: truncation; a value that does not
    fit yields [INT_MIN], as the conversion instruction of the usual
    targets does. *)
Definition double_to_int (d : float) : Z :=
  match trunc d with
  | Some z => if decide (INT_MIN ≤ z ≤ INT_MAX) then z else INT_MIN
  | None => INT_MIN
  end.

(** [static_cast<uint8_t>] of a [double]. *)
Definition double_to_u8 (d : float) : Z := to_u8 (double_to_int d).

(** [std::min] and [std::max] on doubles, by their definition with [<]. *)
Definition dmin (a b : float) : float := if (b <? a)%float then b else a.
Definition dmax (a b : float) : float := if (a <? b)%float then b else a.

(** ** Vectors, arrays and loops *)

(** [v[i]] read. *)
Definition vget (v : list Z) (i : Z) : option Z :=
  if decide (0 ≤ i) then v !! Z.to_nat i else None.

(** [v[i] = x]. *)
Definition vset (v : list Z) (i : Z) (x : Z) : option (list Z) :=
  if decide (0 ≤ i < Z.of_nat (length v)) then Some (<[Z.to_nat i := x]> v)
  else None.

(** [std::vector<uint8_t> v(n)]: [n] zero bytes. *)
Definition vector (n : Z) : option (list Z) :=
  if decide (0 ≤ n) then Some (replicate (Z.to_nat n) 0) else None.

(** [std::memcpy(dst, src, n)]. *)
Definition memcpy (dst src : list Z) (n : Z) : option (list Z) :=
  if decide (0 ≤ n ≤ Z.of_nat (length src) ∧ n ≤ Z.of_nat (length dst))
  then Some (take (Z.to_nat n) src ++ drop (Z.to_nat n) dst)
  else None.

(** [n] iterations of [body], the counter starting at [i]. *)
Fixpoint iterate {A : Type} (n : nat) (i : Z) (body : Z → A → option A) (s : A)
  : option A :=
  match n with
  | O => Some s
  | S n' =>
      match body i s with
      | Some s' => iterate n' (i + 1) body s'
      | None => None
      end
  end.

(** [for (int i = lo; i < hi; ++i) body]. The counter stays below [hi],
    an [int], so [++i] never wraps. *)
Definition for_loop {A : Type} (lo hi : Z) (body : Z → A → option A) (s : A)
  : option A :=
  iterate (Z.to_nat (hi - lo)) lo body s.

(** ** The stages of [applyCLAHE] *)

Definition NUM_BINS : Z := 256.

(** Line 37: the clip limit in absolute counts. *)
Definition clip_count (clipLimit : float) (numPixelsPerTile : Z) : Z :=
  Z.max 1
    (double_to_int (clipLimit * of_int numPixelsPerTile / of_int NUM_BINS)).

(** Lines 46-55: the histogram of the tile that starts at
    [(startX, startY)]. *)
Definition build_histogram (data : list Z)
    (width startX startY tileW tileH : Z) : option (list Z) :=
  for_loop startY (iadd startY tileH) (λ y hist,
    for_loop startX (iadd startX tileW) (λ x hist,
      pixel ← vget data (iadd (imul y width) x);
      count ← vget hist pixel;
      vset hist pixel (iadd count 1)) hist)
  (replicate (Z.to_nat NUM_BINS) 0).

(** Lines 58-64: cap every bin at [clipCount]; the result is the capped
    histogram and the accumulated excess. *)
Definition clip_histogram (clipCount : Z) (hist : list Z)
  : option (list Z * Z) :=
  for_loop 0 NUM_BINS (λ i '(hist, excess),
    h ← vget hist i;
    if decide (clipCount < h) then
      hist' ← vset hist i clipCount;
      Some (hist', iadd excess (isub h clipCount))
    else Some (hist, excess)) (hist, 0).

(** Line 72: the bin that receives the [i]-th unit of the remainder. *)
Definition remainder_bin (remainder i : Z) : Z :=
  idiv (imul i NUM_BINS) remainder.

(** Lines 67-69: every bin receives [increment]. *)
Definition add_increment (increment : Z) (hist : list Z) : option (list Z) :=
  for_loop 0 NUM_BINS (λ i hist,
    h ← vget hist i;
    vset hist i (iadd h increment)) hist.

(** Lines 71-73: one more unit for each of [remainder] bins. *)
Definition distribute_remainder (remainder : Z) (hist : list Z)
  : option (list Z) :=
  for_loop 0 remainder (λ i hist,
    h ← vget hist (remainder_bin remainder i);
    vset hist (remainder_bin remainder i) (iadd h 1)) hist.

(** Lines 65-73. *)
Definition redistribute (excess : Z) (hist : list Z) : option (list Z) :=
  let increment := idiv excess NUM_BINS in
  let remainder := irem excess NUM_BINS in
  hist ← add_increment increment hist;
  distribute_remainder remainder hist.

(** Lines 57-73: clip and redistribute. *)
Definition clip_and_redistribute (clipCount : Z) (hist : list Z)
  : option (list Z) :=
  '(hist, excess) ← clip_histogram clipCount hist;
  redistribute excess hist.

(** Line 81: one entry of the lookup table, in [int] arithmetic. *)
Definition cdf_entry (cumSum numPixelsPerTile : Z) : Z :=
  to_u8 (Z.min 255 (idiv (imul cumSum 255) numPixelsPerTile)).

(** Lines 76-82: the lookup table of one tile, written into [cdfs] from
    offset [base] on. *)
Definition build_cdf (hist : list Z) (numPixelsPerTile base : Z)
    (cdfs : list Z) : option (list Z) :=
  r ← for_loop 0 NUM_BINS (λ i '(cdfs, cumSum),
    h ← vget hist i;
    let cumSum := iadd cumSum h in
    cdfs ← vset cdfs (base + i) (cdf_entry cumSum numPixelsPerTile);
    Some (cdfs, cumSum)) (cdfs, 0);
  Some r.1.

(** The offset of tile [(ty, tx)] in the table. *)
Definition tile_base (tilesX ty tx : Z) : Z :=
  imul (iadd (imul ty tilesX) tx) NUM_BINS.

(** Lines 44-84: step 1, the lookup tables of all tiles. *)
Definition build_cdfs (data : list Z)
    (width tilesX tilesY tileW tileH numPixelsPerTile clipCount : Z)
    (cdfs : list Z) : option (list Z) :=
  for_loop 0 tilesY (λ ty cdfs,
    for_loop 0 tilesX (λ tx cdfs,
      let startX := imul tx tileW in
      let startY := imul ty tileH in
      hist ← build_histogram data width startX startY tileW tileH;
      hist ← clip_and_redistribute clipCount hist;
      build_cdf hist numPixelsPerTile (tile_base tilesX ty tx) cdfs) cdfs) cdfs.

(** Lines 96-104: the coordinate of a pixel in tile-centre space and the
    clamped index of the first tile of its pair, along one axis. *)
Definition tile_coord (x tileW : Z) : float :=
  (of_int x / of_int tileW - 0.5)%float.

Definition first_tile (f : float) (tiles : Z) : Z :=
  Z.max 0 (Z.min (double_to_int f) (isub tiles 2)).

(** Lines 109-112: the clamped interpolation weight. *)
Definition weight (f : float) (t0 : Z) : float :=
  dmax 0 (dmin 1 (f - of_int t0)).

(** Lines 115-118: the flat index of the entry of tile [(ty, tx)] for
    intensity [pixel]. *)
Definition cdf_index (tilesX ty tx pixel : Z) : Z :=
  iadd (tile_base tilesX ty tx) pixel.

(** Lines 120-125: the blend of the four entries and its conversion. *)
Definition blend (v00 v01 v10 v11 : Z) (cax cay : float) : Z :=
  let top := (of_int v00 * (1 - cax) + of_int v01 * cax)%float in
  let bottom := (of_int v10 * (1 - cax) + of_int v11 * cax)%float in
  let value := (top * (1 - cay) + bottom * cay)%float in
  double_to_u8 (dmax 0 (dmin 255 value)).

(** Lines 92-125: the new value of the pixel at [(x, y)]. *)
Definition interpolate (cdfs : list Z)
    (tilesX tilesY tileW tileH x y pixel : Z) : option Z :=
  let fx := tile_coord x tileW in
  let fy := tile_coord y tileH in
  let tx0 := first_tile fx tilesX in
  let ty0 := first_tile fy tilesY in
  let tx1 := iadd tx0 1 in
  let ty1 := iadd ty0 1 in
  let cax := weight fx tx0 in
  let cay := weight fy ty0 in
  v00 ← vget cdfs (cdf_index tilesX ty0 tx0 pixel);
  v01 ← vget cdfs (cdf_index tilesX ty0 tx1 pixel);
  v10 ← vget cdfs (cdf_index tilesX ty1 tx0 pixel);
  v11 ← vget cdfs (cdf_index tilesX ty1 tx1 pixel);
  Some (blend v00 v01 v10 v11 cax cay).

(** Lines 88-127: step 2, every pixel of [output] from [data] and the
    tables. *)
Definition reconstruct (data cdfs : list Z)
    (width height tilesX tilesY tileW tileH : Z) (output : list Z)
  : option (list Z) :=
  for_loop 0 height (λ y output,
    for_loop 0 width (λ x output,
      pixel ← vget data (iadd (imul y width) x);
      v ← interpolate cdfs tilesX tilesY tileW tileH x y pixel;
      vset output (iadd (imul y width) x) v) output) output.

(** ** The whole call *)

(** What a call leaves behind: the caller's buffer ([None] for a null
    pointer) and the sizes of the vectors it allocated. *)
Record effect : Type := Effect {
  buffer : option (list Z);
  allocations : list Z
}.

(** [applyCLAHE]; the result is [None] when the run leaves the defined
    behaviour of the language (an access out of bounds). *)
Definition applyCLAHE (data : option (list Z))
    (width height tilesX tilesY : Z) (clipLimit : float) : option effect :=
  match data with
  | None => Some (Effect data [])
  | Some buf =>
      if decide (width ≤ 0 ∨ height ≤ 0) then Some (Effect data []) else
      if decide (tilesX ≤ 0 ∨ tilesY ≤ 0) then Some (Effect data []) else
      let tileW := idiv width tilesX in
      let tileH := idiv height tilesY in
      if decide (tileW ≤ 0 ∨ tileH ≤ 0) then Some (Effect data []) else
      let numPixelsPerTile := imul tileW tileH in
      let clipCount := clip_count clipLimit numPixelsPerTile in
      let totalTiles := imul tilesX tilesY in
      cdfs ← vector (imul totalTiles NUM_BINS);
      cdfs ← build_cdfs buf width tilesX tilesY tileW tileH
                numPixelsPerTile clipCount cdfs;
      output ← vector (imul width height);
      output ← reconstruct buf cdfs width height tilesX tilesY tileW tileH
                 output;
      buf' ← memcpy buf output (imul width height);
      Some (Effect (Some buf')
              [imul totalTiles NUM_BINS; imul width height])
  end.

(** ** Notions used by the statements *)

(** The total count of a histogram. *)
Definition sum_bins (hist : list Z) : Z := foldr Z.add 0 hist.
Global Arguments sum_bins : simpl never.

(** The bins that receive the units of the remainder, in loop order. *)
Definition remainder_bins (remainder : Z) : list Z :=
  map (remainder_bin remainder) (seqZ 0 remainder).

(** The lookup table of one tile on its own: [build_cdf] into a fresh
    table of one tile. *)
Definition tile_cdf (hist : list Z) (numPixelsPerTile : Z)
  : option (list Z) :=
  build_cdf hist numPixelsPerTile 0 (replicate (Z.to_nat NUM_BINS) 0).

(** The histogram of a tile whose [n] pixels all carry intensity [v]. *)
Definition uniform_histogram (v n : Z) : list Z :=
  <[Z.to_nat v := n]> (replicate (Z.to_nat NUM_BINS) 0).

(** A 16x16 image each of whose four 8x8 tiles is black (0) in its left
    half and white (255) in its right half. *)
Definition half_row : list Z :=
  [0; 0; 0; 0; 255; 255; 255; 255; 0; 0; 0; 0; 255; 255; 255; 255].

Definition half_image : list Z := mjoin (replicate 16 half_row).

(** An all-black image. *)
Definition black_image (width height : Z) : list Z :=
  replicate (Z.to_nat (width * height)) 0.

(** The value [clamp(q, 0, 255)] of the specification of the lookup
    table, in unbounded integer arithmetic. *)
Definition clamp_exact (q : Z) : Z := Z.max 0 (Z.min 255 q).

(** The lookup table of tile [(ty, tx)] on its own, by the three stages
    of step 1. *)
Definition tile_table (data : list Z)
    (width tileW tileH numPixelsPerTile clipCount ty tx : Z)
  : option (list Z) :=
  hist ← build_histogram data width (imul tx tileW) (imul ty tileH)
            tileW tileH;
  hist ← clip_and_redistribute clipCount hist;
  tile_cdf hist numPixelsPerTile.

(** The position of tile [(ty, tx)] in the table, as a list index. *)
Definition tile_offset (tilesX ty tx : Z) : nat :=
  Z.to_nat ((ty * tilesX + tx) * 256).

(** The table [cdfs] holds the lookup table of tile [(ty, tx)]. *)
Definition tile_filled (data : list Z)
    (width tilesX tileW tileH numPixelsPerTile clipCount : Z)
    (cdfs : list Z) (ty tx : Z) : Prop :=
  ∃ table,
    tile_table data width tileW tileH numPixelsPerTile clipCount ty tx
      = Some table ∧
    length table = 256%nat ∧
    ∀ i : nat, (i < 256)%nat →
      cdfs !! (tile_offset tilesX ty tx + i)%nat = table !! i.

(** The pixel at [(x, y)] of [out] is the interpolation of the pixel of
    [data] at the same place. *)
Definition pixel_done (data cdfs : list Z)
    (width tilesX tilesY tileW tileH : Z) (out : list Z) (x y : Z) : Prop :=
  ∃ pixel v,
    data !! Z.to_nat (y * width + x) = Some pixel ∧
    interpolate cdfs tilesX tilesY tileW tileH x y pixel = Some v ∧
    out !! Z.to_nat (y * width + x) = Some v.

(** The inputs the interface admits: the checks of lines 25-32 pass, the
    buffer holds [width * height] bytes, and the sizes of the buffer and
    of the table are [int] values. *)
Record valid_input (data : list Z) (width height tilesX tilesY : Z)
  : Prop := ValidInput {
  valid_width : 0 < width;
  valid_height : 0 < height;
  valid_tilesX : 0 < tilesX;
  valid_tilesY : 0 < tilesY;
  valid_tileW : 0 < width / tilesX;
  valid_tileH : 0 < height / tilesY;
  valid_bytes : Forall is_u8 data;
  valid_length : Z.of_nat (length data) = width * height;
  valid_size : width * height ≤ INT_MAX;
  valid_table : tilesX * tilesY * 256 ≤ INT_MAX
}.

(** A table is non-decreasing. *)
Definition monotone (table : list Z) : Prop :=
  ∀ (i j : nat) (a b : Z),
    (i ≤ j)%nat → table !! i = Some a → table !! j = Some b → a ≤ b.

(** ** 32-bit arithmetic without overflow *)

(** Goals that bound an integer expression by the range of [int] or of a
    byte. *)
Ltac int_range := unfold is_int, is_u8, INT_MIN, INT_MAX in *; lia.

Lemma wrap32_id (z : Z) : is_int z → wrap32 z = z.
Proof.
  unfold is_int, INT_MIN, INT_MAX, wrap32. intros Hz.
  rewrite Z.mod_small; lia.
Qed.

Lemma iadd_id (a b : Z) : is_int (a + b) → iadd a b = a + b.
Proof. apply wrap32_id. Qed.

Lemma isub_id (a b : Z) : is_int (a - b) → isub a b = a - b.
Proof. apply wrap32_id. Qed.

Lemma imul_id (a b : Z) : is_int (a * b) → imul a b = a * b.
Proof. apply wrap32_id. Qed.

Lemma idiv_id (a b : Z) : 0 ≤ a → 0 < b → is_int a → idiv a b = a / b.
Proof.
  intros Ha Hb Hi. unfold idiv. rewrite Z.quot_div_nonneg by lia.
  apply wrap32_id. unfold is_int, INT_MIN, INT_MAX in *.
  pose proof (Z.div_pos a b Ha Hb).
  pose proof (Z.div_le_upper_bound a b a Hb). nia.
Qed.

Lemma irem_id (a b : Z) : 0 ≤ a → 0 < b → irem a b = a mod b.
Proof. intros. unfold irem. apply Z.rem_mod_nonneg; lia. Qed.

Lemma to_u8_is_u8 (z : Z) : is_u8 (to_u8 z).
Proof. unfold is_u8, to_u8. apply Z.mod_pos_bound. lia. Qed.

(** ** Loops *)

Lemma iterate_invariant {A : Type} (P : Z → A → Prop)
    (body : Z → A → option A) (n : nat) :
  ∀ (i : Z) (s : A),
    P i s →
    (∀ j t, i ≤ j < i + Z.of_nat n → P j t →
       ∃ t', body j t = Some t' ∧ P (j + 1) t') →
    ∃ s', iterate n i body s = Some s' ∧ P (i + Z.of_nat n) s'.
Proof.
  induction n as [|n IH]; intros i s HP Hstep.
  - exists s. split; [reflexivity|]. by replace (i + Z.of_nat 0) with i by lia.
  - destruct (Hstep i s) as (t & Hb & HP'); [lia|done|].
    destruct (IH (i + 1) t HP') as (s' & Hit & HP'').
    + intros j u Hj. apply Hstep. lia.
    + exists s'. cbn [iterate]. rewrite Hb. split; [done|].
      by replace (i + Z.of_nat (S n)) with (i + 1 + Z.of_nat n) by lia.
Qed.

(** The rule of the [for] loop: an invariant that holds at [lo] and is
    kept by every iteration holds at [hi], and the loop ends normally. *)
Lemma for_loop_invariant {A : Type} (P : Z → A → Prop) (lo hi : Z)
    (body : Z → A → option A) (s : A) :
  lo ≤ hi →
  P lo s →
  (∀ i t, lo ≤ i < hi → P i t → ∃ t', body i t = Some t' ∧ P (i + 1) t') →
  ∃ s', for_loop lo hi body s = Some s' ∧ P hi s'.
Proof.
  intros Hle HP Hstep. unfold for_loop.
  destruct (iterate_invariant P body (Z.to_nat (hi - lo)) lo s HP)
    as (s' & Hit & HP').
  - intros j t Hj. apply Hstep. lia.
  - exists s'. split; [done|].
    by replace (lo + Z.of_nat (Z.to_nat (hi - lo))) with hi in HP' by lia.
Qed.

Lemma iterate_ext {A : Type} (body body' : Z → A → option A) (n : nat) :
  ∀ (i : Z) (s : A),
    (∀ j t, i ≤ j < i + Z.of_nat n → body j t = body' j t) →
    iterate n i body s = iterate n i body' s.
Proof.
  induction n as [|n IH]; intros i s Hext; [done|].
  cbn [iterate]. rewrite Hext by lia.
  destruct (body' i s) as [t|]; [|done].
  apply IH. intros j u Hj. apply Hext. lia.
Qed.

(** Two bodies that agree on the range of the counter give the same loop. *)
Lemma for_loop_ext {A : Type} (lo hi : Z) (body body' : Z → A → option A)
    (s : A) :
  (∀ i t, lo ≤ i < hi → body i t = body' i t) →
  for_loop lo hi body s = for_loop lo hi body' s.
Proof.
  intros Hext. unfold for_loop. apply iterate_ext.
  intros j t Hj. apply Hext. lia.
Qed.

(** ** Vector accesses *)

Lemma vget_lookup (v : list Z) (i : Z) :
  0 ≤ i → vget v i = v !! Z.to_nat i.
Proof. intros. unfold vget. by rewrite decide_True. Qed.

Lemma vget_None_above (v : list Z) (i : Z) :
  Z.of_nat (length v) ≤ i → vget v i = None.
Proof.
  intros. unfold vget. case_decide; [|done]. apply lookup_ge_None. lia.
Qed.

Lemma vget_in_bounds (v : list Z) (i : Z) :
  0 ≤ i < Z.of_nat (length v) → ∃ x, vget v i = Some x ∧ v !! Z.to_nat i = Some x.
Proof.
  intros Hi. destruct (lookup_lt_is_Some_2 v (Z.to_nat i)) as [x Hx]; [lia|].
  exists x. by rewrite vget_lookup by lia.
Qed.

Lemma vset_in_bounds (v : list Z) (i x : Z) :
  0 ≤ i < Z.of_nat (length v) → vset v i x = Some (<[Z.to_nat i := x]> v).
Proof. intros. unfold vset. by rewrite decide_True. Qed.

(** ** Invalid inputs *)

(** C1. A call with a null buffer, a non-positive width or height, a
    non-positive tile count, or more tiles than pixels along an axis
    (so that the tile size is zero) returns at once: it allocates
    nothing and leaves the caller's buffer as it was. *)
Theorem invalid_input_is_noop (data : option (list Z))
    (width height tilesX tilesY : Z) (clipLimit : float) :
  data = None ∨ width ≤ 0 ∨ height ≤ 0 ∨ tilesX ≤ 0 ∨ tilesY ≤ 0 ∨
    width / tilesX = 0 ∨ height / tilesY = 0 →
  applyCLAHE data width height tilesX tilesY clipLimit = Some (Effect data []).
Proof.
  intros Hinv. unfold applyCLAHE.
  destruct data as [buf|]; [|done].
  repeat case_decide; try done.
  exfalso.
  assert (Hq : ∀ a b, 0 < a → 0 < b → a / b = 0 → idiv a b ≤ 0).
  { intros a b Ha Hb Hab. unfold idiv.
    rewrite Z.quot_div_nonneg, Hab by lia. done. }
  destruct Hinv as [?|[?|[?|[?|[?|[Hw|Hh]]]]]]; try done; try lia.
  - apply Hq in Hw; lia.
  - apply Hq in Hh; lia.
Qed.

Lemma invalid_input_is_noop_witness :
  (2 / 3 = 0) ∧
  applyCLAHE (Some [10; 20; 30; 40]) 2 2 3 1 2 =
    Some (Effect (Some [10; 20; 30; 40]) []).
Proof.
  split; [reflexivity|].
  apply (invalid_input_is_noop (Some [10; 20; 30; 40]) 2 2 3 1 2).
  do 5 right. left. reflexivity.
Defined.

(** ** The histogram reads only the pixels of its tile *)

Lemma build_histogram_ext (data data' : list Z)
    (width startX startY tileW tileH : Z) :
  (∀ x y, startX ≤ x < iadd startX tileW → startY ≤ y < iadd startY tileH →
     vget data (iadd (imul y width) x) = vget data' (iadd (imul y width) x)) →
  build_histogram data width startX startY tileW tileH =
  build_histogram data' width startX startY tileW tileH.
Proof.
  intros Hagree. unfold build_histogram.
  apply for_loop_ext. intros y hist Hy.
  apply for_loop_ext. intros x hist' Hx.
  by rewrite Hagree.
Qed.

(** ** The concrete scenario of the specification *)

Lemma half_image_pixel (x y : Z) :
  0 ≤ x < 16 → 0 ≤ y < 16 →
  vget half_image (iadd (imul y 16) x) =
    Some (if decide (x `mod` 8 < 4) then 0 else 255).
Proof.
  intros Hx Hy.
  assert (Hall : Forall (λ y, Forall (λ x,
            vget half_image (iadd (imul y 16) x) =
              Some (if decide (x `mod` 8 < 4) then 0 else 255))
            (seqZ 0 16)) (seqZ 0 16)).
  { apply (bool_decide_unpack _). vm_compute. reflexivity. }
  rewrite Forall_forall in Hall.
  specialize (Hall y). rewrite Forall_forall in Hall.
  apply Hall; apply elem_of_seqZ; lia.
Qed.

(** C9. A 16x16 image, 2x2 tiles of 8x8 pixels, clip limit 2.0, and a
    tile that is 0 on its left half and 255 on its right half: the clip
    count is 1; the histogram of the tile has 32 in bin 0 and in bin 255
    and 0 elsewhere; both bins are capped at 1 and the excess is 62; the
    increment is 0 and the remainder 62; the 62 distinct bins
    [i * 256 / 62] receive one unit each and no other bin changes. *)
Theorem half_tile_scenario (data : list Z) (tx ty : Z) :
  0 ≤ tx < 2 → 0 ≤ ty < 2 →
  (∀ x y, 0 ≤ x < 8 → 0 ≤ y < 8 →
     vget data ((ty * 8 + y) * 16 + (tx * 8 + x)) =
       Some (if decide (x < 4) then 0 else 255)) →
  let tileW := idiv 16 2 in
  let tileH := idiv 16 2 in
  let numPixelsPerTile := imul tileW tileH in
  let clipCount := clip_count 2 numPixelsPerTile in
  let hist := <[255%nat := 32]> (uniform_histogram 0 32) in
  let clipped := <[255%nat := 1]> (uniform_histogram 0 1) in
  tileW = 8 ∧ tileH = 8 ∧ numPixelsPerTile = 64 ∧ clipCount = 1 ∧
  build_histogram data 16 (imul tx tileW) (imul ty tileH) tileW tileH
    = Some hist ∧
  hist !! 0%nat = Some 32 ∧ hist !! 255%nat = Some 32 ∧
  clip_histogram clipCount hist = Some (clipped, 62) ∧
  clipped !! 0%nat = Some 1 ∧ clipped !! 255%nat = Some 1 ∧
  idiv 62 NUM_BINS = 0 ∧ irem 62 NUM_BINS = 62 ∧
  remainder_bins 62 = map (λ i, i * 256 / 62) (seqZ 0 62) ∧
  length (remainder_bins 62) = 62%nat ∧
  NoDup (remainder_bins 62) ∧
  redistribute 62 clipped =
    Some (map (λ j, clipped !!! Z.to_nat j +
                    (if decide (j ∈ remainder_bins 62) then 1 else 0))
              (seqZ 0 256)).
Proof.
  intros Htx Hty Htile. cbn zeta.
  change (idiv 16 2) with 8.
  assert (Hhist :
    build_histogram data 16 (imul tx 8) (imul ty 8) 8 8 =
    build_histogram half_image 16 (imul tx 8) (imul ty 8) 8 8).
  { apply build_histogram_ext. intros x y Hx Hy.
    rewrite !imul_id, !iadd_id in Hx, Hy
      by (rewrite ?imul_id; int_range).
    rewrite half_image_pixel by lia.
    rewrite imul_id, iadd_id by int_range.
    specialize (Htile (x - tx * 8) (y - ty * 8) ltac:(lia) ltac:(lia)).
    replace ((ty * 8 + (y - ty * 8)) * 16 + (tx * 8 + (x - tx * 8)))
      with (y * 16 + x) in Htile by lia.
    rewrite Htile.
    assert (Hmod : x `mod` 8 = x - tx * 8).
    { replace x with (x - tx * 8 + tx * 8) at 1 by lia.
      rewrite Z.mod_add, Z.mod_small; lia. }
    by rewrite Hmod. }
  rewrite Hhist.
  assert (tx = 0 ∨ tx = 1) as [-> | ->] by lia;
    assert (ty = 0 ∨ ty = 1) as [-> | ->] by lia;
    (repeat apply conj; try (vm_compute; reflexivity);
     apply (bool_decide_unpack _); vm_compute; reflexivity).
Qed.

Lemma half_tile_scenario_witness :
  build_histogram half_image 16 (imul 1 (idiv 16 2)) (imul 0 (idiv 16 2))
    (idiv 16 2) (idiv 16 2)
  = Some (<[255%nat := 32]> (uniform_histogram 0 32)).
Proof.
  apply (half_tile_scenario half_image 1 0); [lia | lia |].
  intros x y Hx Hy.
  rewrite <- (iadd_id _ (1 * 8 + x)), <- (imul_id _ 16)
    by (rewrite ?imul_id; int_range).
  rewrite half_image_pixel by lia.
  replace (1 * 8 + x) with (x + 1 * 8) by lia.
  rewrite Z.mod_add, Z.mod_small by lia. done.
Defined.

(** ** The bins of the remainder *)

Lemma remainder_bin_exact (r i : Z) :
  0 < r < 256 → 0 ≤ i < r → remainder_bin r i = i * 256 / r.
Proof.
  intros Hr Hi. unfold remainder_bin, NUM_BINS.
  rewrite imul_id by int_range.
  apply idiv_id; [lia | lia | int_range].
Qed.

Lemma remainder_bin_bounds (r i : Z) :
  0 < r < 256 → 0 ≤ i < r → 0 ≤ remainder_bin r i ≤ 255.
Proof.
  intros Hr Hi. rewrite remainder_bin_exact by done. split.
  - apply Z.div_pos; lia.
  - assert (i * 256 / r < 256); [|lia].
    apply Z.div_lt_upper_bound; lia.
Qed.

(** Consecutive units go to bins at least [256 / r >= 1] apart. *)
Lemma remainder_bin_increasing (r i j : Z) :
  0 < r < 256 → 0 ≤ i → i < j → j < r →
  remainder_bin r i < remainder_bin r j.
Proof.
  intros Hr Hi Hij Hj. rewrite !remainder_bin_exact by lia.
  assert (Hstep : i * 256 / r + 1 ≤ j * 256 / r); [|lia].
  replace (i * 256 / r + 1) with ((i * 256 + 1 * r) / r)
    by (rewrite Z.div_add by lia; done).
  apply Z.div_le_mono; lia.
Qed.

Lemma remainder_bin_inj (r i j : Z) :
  0 < r < 256 → 0 ≤ i < r → 0 ≤ j < r →
  remainder_bin r i = remainder_bin r j → i = j.
Proof.
  intros Hr Hi Hj Heq.
  destruct (Z.lt_trichotomy i j) as [Hlt | [-> | Hgt]]; [|done|].
  - pose proof (remainder_bin_increasing r i j). lia.
  - pose proof (remainder_bin_increasing r j i). lia.
Qed.

Lemma elem_of_remainder_bins_prefix (r n b : Z) :
  b ∈ map (remainder_bin r) (seqZ 0 n) ↔
  ∃ i, 0 ≤ i < n ∧ b = remainder_bin r i.
Proof.
  rewrite list_elem_of_fmap. split.
  - intros (i & -> & Hi%elem_of_seqZ). exists i. split; [lia | done].
  - intros (i & Hi & ->). exists i. split; [done|]. apply elem_of_seqZ. lia.
Qed.

(** C10. For a remainder [r] with [0 < r < 256], the bins
    [i * 256 / r], [i] in [[0, r)], all lie in [[0, 255]] and are
    pairwise distinct; the loop of the remainder ends normally and adds
    one unit (an [int] increment, exact below [INT_MAX]) to each of
    these [r] bins and nothing to any other bin, so no bin is
    incremented twice. *)
Theorem remainder_units_hit_distinct_bins (r : Z) :
  0 < r < 256 →
  remainder_bins r = map (λ i, i * 256 / r) (seqZ 0 r) ∧
  length (remainder_bins r) = Z.to_nat r ∧
  Forall (λ b, 0 ≤ b ≤ 255) (remainder_bins r) ∧
  NoDup (remainder_bins r) ∧
  (∀ h, INT_MIN ≤ h < INT_MAX → iadd h 1 = h + 1) ∧
  ∀ hist : list Z, length hist = 256%nat →
    ∃ hist', distribute_remainder r hist = Some hist' ∧
      length hist' = 256%nat ∧
      ∀ (j : nat) (h : Z), hist !! j = Some h →
        hist' !! j =
          Some (if decide (Z.of_nat j ∈ remainder_bins r) then iadd h 1 else h).
Proof.
  intros Hr. unfold remainder_bins. repeat apply conj.
  - apply list_eq. intros k. rewrite !list_lookup_fmap.
    destruct (seqZ 0 r !! k) as [i|] eqn:Hk; [|done].
    apply lookup_seqZ in Hk. cbn. f_equal.
    apply remainder_bin_exact; lia.
  - by rewrite length_map, length_seqZ.
  - apply Forall_fmap, Forall_forall. intros i Hi%elem_of_seqZ. cbn.
    apply remainder_bin_bounds; lia.
  - apply NoDup_fmap_2_strong; [|apply NoDup_seqZ].
    intros i j Hi%elem_of_seqZ Hj%elem_of_seqZ.
    apply remainder_bin_inj; lia.
  - intros h Hh. apply iadd_id. unfold is_int. lia.
  - intros hist Hlen. unfold distribute_remainder.
    apply (for_loop_invariant (λ n hist',
      length hist' = 256%nat ∧
      ∀ (j : nat) (h : Z), hist !! j = Some h →
        hist' !! j =
          Some (if decide (Z.of_nat j ∈ map (remainder_bin r) (seqZ 0 n))
                then iadd h 1 else h)) 0 r); [lia | |].
    + split; [done|]. intros j h Hj. rewrite decide_False; [done|].
      intros (k & Hk & _)%elem_of_remainder_bins_prefix. lia.
    + intros i cur Hi [Hcur Hinv].
      pose proof (remainder_bin_bounds r i Hr Hi) as Hb.
      destruct (vget_in_bounds hist (remainder_bin r i)) as (h0 & _ & Hh0);
        [lia|].
      assert (Hfresh : Z.of_nat (Z.to_nat (remainder_bin r i))
                         ∉ map (remainder_bin r) (seqZ 0 i)).
      { rewrite Z2Nat.id by lia.
        intros (k & Hk & Heq)%elem_of_remainder_bins_prefix.
        apply remainder_bin_inj in Heq; lia. }
      pose proof (Hinv _ _ Hh0) as Hread. rewrite decide_False in Hread by done.
      rewrite vget_lookup, Hread by lia. cbn.
      rewrite vset_in_bounds by lia.
      eexists. split; [done|]. split; [by rewrite length_insert|].
      intros j h Hj.
      destruct (decide (j = Z.to_nat (remainder_bin r i))) as [-> | Hne].
      * rewrite list_lookup_insert_eq by lia.
        assert (h = h0) as -> by congruence.
        rewrite decide_True; [done|].
        apply elem_of_remainder_bins_prefix. exists i. split; lia.
      * rewrite list_lookup_insert_ne by done.
        rewrite (Hinv _ _ Hj). f_equal.
        apply decide_ext. rewrite !elem_of_remainder_bins_prefix.
        split; intros (k & Hk & Heq).
        -- exists k. split; [lia | done].
        -- exists k. split; [|done].
           assert (k ≠ i); [|lia]. intros ->. lia.
Qed.

Lemma remainder_units_hit_distinct_bins_witness :
  NoDup (remainder_bins 62) ∧
  Forall (λ b, 0 ≤ b ≤ 255) (remainder_bins 62).
Proof.
  destruct (remainder_units_hit_distinct_bins 62 ltac:(lia))
    as (_ & _ & Hbounds & Hnodup & _ & _).
  split; [exact Hnodup | exact Hbounds].
Defined.

(** ** Clip and redistribute keeps the total count *)

Lemma sum_bins_nonneg (l : list Z) : Forall (λ b, 0 ≤ b) l → 0 ≤ sum_bins l.
Proof. unfold sum_bins. induction 1 as [|b l Hb _ IH]; cbn; lia. Qed.

Lemma sum_bins_insert (l : list Z) (i : nat) (h x : Z) :
  l !! i = Some h → sum_bins (<[i := x]> l) = sum_bins l - h + x.
Proof.
  unfold sum_bins.
  revert i. induction l as [|b l IH]; intros [|i] Hi; try done.
  - injection Hi as ->. cbn. lia.
  - specialize (IH i Hi). simpl in *. lia.
Qed.

Lemma sum_bins_lookup_le (l : list Z) (i : nat) (h : Z) :
  Forall (λ b, 0 ≤ b) l → l !! i = Some h → 0 ≤ h ≤ sum_bins l.
Proof.
  intros Hall. revert i. induction Hall as [|b l Hb Hl IH]; intros [|i] Hi;
    try done.
  - injection Hi as ->. pose proof (sum_bins_nonneg l Hl).
    unfold sum_bins in *. cbn. lia.
  - unfold sum_bins in *. cbn in *. specialize (IH i Hi). lia.
Qed.

Lemma is_int_between (z : Z) : 0 ≤ z ≤ INT_MAX → is_int z.
Proof. int_range. Qed.

(** Lines 58-64 cap every bin at [clipCount] and collect what was cut. *)
Lemma clip_histogram_spec (clipCount : Z) (hist : list Z) :
  length hist = 256%nat →
  Forall (λ b, 0 ≤ b) hist →
  sum_bins hist ≤ INT_MAX →
  1 ≤ clipCount ≤ INT_MAX →
  ∃ excess,
    clip_histogram clipCount hist = Some (Z.min clipCount <$> hist, excess) ∧
    0 ≤ excess ∧
    sum_bins (Z.min clipCount <$> hist) + excess = sum_bins hist.
Proof.
  intros Hlen Hpos Hsum Hclip. unfold clip_histogram.
  destruct (for_loop_invariant (λ i (st : list Z * Z),
      length st.1 = 256%nat ∧ Forall (λ b, 0 ≤ b) st.1 ∧
      (∀ (j : nat) (h : Z), hist !! j = Some h →
         st.1 !! j = Some (if decide (Z.of_nat j < i) then Z.min clipCount h
                           else h)) ∧
      0 ≤ st.2 ∧ sum_bins st.1 + st.2 = sum_bins hist) 0 NUM_BINS
    (λ i '(hist, excess),
      h ← vget hist i;
      if decide (clipCount < h) then
        hist' ← vset hist i clipCount;
        Some (hist', iadd excess (isub h clipCount))
      else Some (hist, excess)) (hist, 0))
    as ([clipped excess] & Hrun & Hl & Hp & Hpt & Hex & Htot).
  - unfold NUM_BINS. lia.
  - cbn. split_and!; [done | done | | lia | ].
    + intros j h Hj. by rewrite decide_False by lia.
    + lia.
  - intros i [cur ex] Hi (Hl & Hp & Hpt & Hex & Htot). cbn in *.
    unfold NUM_BINS in Hi.
    destruct (vget_in_bounds hist i) as (h & _ & Hh); [lia|].
    pose proof (Hpt _ _ Hh) as Hcur. rewrite decide_False in Hcur by lia.
    rewrite vget_lookup, Hcur by lia. cbn.
    pose proof (sum_bins_lookup_le _ _ _ Hp Hcur) as Hhle.
    case_decide as Hcmp.
    + rewrite vset_in_bounds by lia. cbn.
      pose proof (sum_bins_insert cur (Z.to_nat i) h clipCount Hcur) as Hins.
      assert (Hp' : Forall (λ b, 0 ≤ b) (<[Z.to_nat i := clipCount]> cur))
        by (apply Forall_insert; [done | lia]).
      pose proof (sum_bins_nonneg _ Hp') as Hnn.
      rewrite isub_id, iadd_id by (apply is_int_between; lia).
      eexists. split; [done|]. cbn.
      split_and!; [by rewrite length_insert | done | | lia | lia].
      intros j h' Hj.
      destruct (decide (j = Z.to_nat i)) as [-> | Hne].
      * rewrite list_lookup_insert_eq by lia.
        assert (h' = h) as -> by congruence.
        rewrite decide_True by lia. f_equal. lia.
      * rewrite list_lookup_insert_ne by done. rewrite (Hpt _ _ Hj).
        f_equal. apply decide_ext. lia.
    + eexists. split; [done|]. cbn.
      split_and!; [done | done | | lia | lia].
      intros j h' Hj.
      destruct (decide (j = Z.to_nat i)) as [-> | Hne].
      * assert (h' = h) as -> by congruence.
        rewrite Hcur, decide_True by lia. f_equal. lia.
      * rewrite (Hpt _ _ Hj). f_equal. apply decide_ext. lia.
  - cbn in *. assert (clipped = Z.min clipCount <$> hist) as ->.
    { apply list_eq. intros j. rewrite list_lookup_fmap.
      destruct (hist !! j) as [h|] eqn:Hj; cbn.
      - rewrite (Hpt _ _ Hj). apply lookup_lt_Some in Hj.
        rewrite decide_True; [done|]. unfold NUM_BINS. lia.
      - apply lookup_ge_None. apply lookup_ge_None in Hj. lia. }
    exists excess. done.
Qed.

(** Lines 67-69 add [increment] to every bin. *)
Lemma add_increment_spec (increment : Z) (hist : list Z) :
  length hist = 256%nat →
  Forall (λ b, 0 ≤ b) hist →
  0 ≤ increment →
  sum_bins hist + 256 * increment ≤ INT_MAX →
  ∃ hist',
    add_increment increment hist = Some hist' ∧
    length hist' = 256%nat ∧ Forall (λ b, 0 ≤ b) hist' ∧
    sum_bins hist' = sum_bins hist + 256 * increment.
Proof.
  intros Hlen Hpos Hinc Hsum. unfold add_increment.
  destruct (for_loop_invariant (λ i (cur : list Z),
      length cur = 256%nat ∧ Forall (λ b, 0 ≤ b) cur ∧
      sum_bins cur = sum_bins hist + i * increment) 0 NUM_BINS
    (λ i hist, h ← vget hist i; vset hist i (iadd h increment)) hist)
    as (hist' & Hrun & Hl & Hp & Htot).
  - unfold NUM_BINS. lia.
  - split_and!; [done | done | lia].
  - intros i cur Hi (Hl & Hp & Htot). unfold NUM_BINS in Hi.
    destruct (vget_in_bounds cur i) as (h & Hget & Hh); [lia|].
    rewrite Hget. cbn.
    pose proof (sum_bins_lookup_le _ _ _ Hp Hh) as Hhle.
    rewrite iadd_id by (apply is_int_between; nia).
    rewrite vset_in_bounds by lia.
    eexists. split; [done|].
    split_and!; [by rewrite length_insert | apply Forall_insert; [done|lia] |].
    rewrite (sum_bins_insert _ _ _ _ Hh). lia.
  - exists hist'. unfold NUM_BINS in Htot. done.
Qed.

(** Lines 71-73 add one unit per iteration. *)
Lemma distribute_remainder_total (remainder : Z) (hist : list Z) :
  length hist = 256%nat →
  Forall (λ b, 0 ≤ b) hist →
  0 ≤ remainder < 256 →
  sum_bins hist + remainder ≤ INT_MAX →
  ∃ hist',
    distribute_remainder remainder hist = Some hist' ∧
    length hist' = 256%nat ∧ Forall (λ b, 0 ≤ b) hist' ∧
    sum_bins hist' = sum_bins hist + remainder.
Proof.
  intros Hlen Hpos Hrem Hsum. unfold distribute_remainder.
  destruct (for_loop_invariant (λ i (cur : list Z),
      length cur = 256%nat ∧ Forall (λ b, 0 ≤ b) cur ∧
      sum_bins cur = sum_bins hist + i) 0 remainder
    (λ i hist,
      h ← vget hist (remainder_bin remainder i);
      vset hist (remainder_bin remainder i) (iadd h 1)) hist)
    as (hist' & Hrun & Hl & Hp & Htot).
  - lia.
  - split_and!; [done | done | lia].
  - intros i cur Hi (Hl & Hp & Htot).
    pose proof (remainder_bin_bounds remainder i ltac:(lia) Hi) as Hb.
    destruct (vget_in_bounds cur (remainder_bin remainder i))
      as (h & Hget & Hh); [lia|].
    rewrite Hget. cbn.
    pose proof (sum_bins_lookup_le _ _ _ Hp Hh) as Hhle.
    rewrite iadd_id by (apply is_int_between; lia).
    rewrite vset_in_bounds by lia.
    eexists. split; [done|].
    split_and!; [by rewrite length_insert | apply Forall_insert; [done|lia] |].
    rewrite (sum_bins_insert _ _ _ _ Hh). lia.
  - exists hist'. done.
Qed.

(** Lines 57-73 as a whole. *)
Lemma clip_and_redistribute_spec (clipCount : Z) (hist : list Z) :
  length hist = 256%nat →
  Forall (λ b, 0 ≤ b) hist →
  sum_bins hist ≤ INT_MAX →
  1 ≤ clipCount ≤ INT_MAX →
  ∃ hist',
    clip_and_redistribute clipCount hist = Some hist' ∧
    length hist' = 256%nat ∧
    Forall (λ b, 0 ≤ b) hist' ∧
    sum_bins hist' = sum_bins hist.
Proof.
  intros Hlen Hpos Hsum Hclip. unfold clip_and_redistribute.
  destruct (clip_histogram_spec clipCount hist Hlen Hpos Hsum Hclip)
    as (excess & -> & Hex & Htot).
  cbn. unfold redistribute.
  set (clipped := Z.min clipCount <$> hist) in *.
  assert (Hlen' : length clipped = 256%nat) by (unfold clipped; by rewrite length_fmap).
  assert (Hpos' : Forall (λ b, 0 ≤ b) clipped).
  { unfold clipped. apply Forall_fmap. eapply Forall_impl; [exact Hpos|].
    cbn. intros b Hb. lia. }
  pose proof (sum_bins_nonneg _ Hpos') as Hnn.
  assert (Hexi : is_int excess) by (apply is_int_between; lia).
  unfold NUM_BINS.
  rewrite idiv_id, irem_id by (done || lia).
  pose proof (Z.div_mod excess 256 ltac:(lia)) as Hdm.
  pose proof (Z.mod_pos_bound excess 256 ltac:(lia)) as Hmod.
  assert (Hdiv : 0 ≤ excess / 256) by (apply Z.div_pos; lia).
  destruct (add_increment_spec (excess / 256) clipped Hlen' Hpos' Hdiv)
    as (hist1 & -> & Hl1 & Hp1 & Hs1); [lia|].
  cbn.
  destruct (distribute_remainder_total (excess `mod` 256) hist1 Hl1 Hp1 Hmod)
    as (hist2 & -> & Hl2 & Hp2 & Hs2); [lia|].
  exists hist2. split_and!; [done | done | done | lia].
Qed.

(** C5. For a histogram of 256 non-negative bins whose total is an
    [int] (the [tileW * tileH] pixels of a tile) and a clip count of at
    least 1, the clip-and-redistribute stage (cap every bin, add
    [excess / 256] to every bin, add one unit to bin [i * 256 / remainder]
    for every [i] below the remainder) ends normally with 256
    non-negative bins that have the same total. *)
Theorem clip_and_redistribute_keeps_total (clipCount : Z) (hist : list Z) :
  length hist = 256%nat →
  Forall (λ b, 0 ≤ b) hist →
  sum_bins hist ≤ INT_MAX →
  1 ≤ clipCount ≤ INT_MAX →
  ∃ clipped excess hist1 hist',
    clip_histogram clipCount hist = Some (clipped, excess) ∧
    clipped = Z.min clipCount <$> hist ∧
    add_increment (excess / 256) clipped = Some hist1 ∧
    distribute_remainder (excess `mod` 256) hist1 = Some hist' ∧
    clip_and_redistribute clipCount hist = Some hist' ∧
    length hist' = 256%nat ∧
    Forall (λ b, 0 ≤ b) hist' ∧
    sum_bins hist' = sum_bins hist.
Proof.
  intros Hlen Hpos Hsum Hclip.
  destruct (clip_and_redistribute_spec clipCount hist Hlen Hpos Hsum Hclip)
    as (hist' & Hrun & Hl & Hp & Htot).
  destruct (clip_histogram_spec clipCount hist Hlen Hpos Hsum Hclip)
    as (excess & Hclipped & Hex & Hsplit).
  unfold clip_and_redistribute, redistribute in Hrun.
  rewrite Hclipped in Hrun. simpl in Hrun. unfold NUM_BINS in Hrun.
  pose proof (sum_bins_nonneg _ Hpos) as Hnn.
  assert (Hnn' : 0 ≤ sum_bins (Z.min clipCount <$> hist)).
  { apply sum_bins_nonneg, Forall_fmap. eapply Forall_impl; [exact Hpos|].
    simpl. intros b Hb. lia. }
  rewrite idiv_id, irem_id in Hrun
    by (try apply is_int_between; lia).
  destruct (add_increment (excess / 256) (Z.min clipCount <$> hist))
    as [hist1|] eqn:Hinc; [|done].
  simpl in Hrun.
  exists (Z.min clipCount <$> hist), excess, hist1, hist'.
  split_and!; try assumption; try reflexivity.
  unfold clip_and_redistribute, redistribute. rewrite Hclipped. simpl.
  unfold NUM_BINS.
  rewrite idiv_id, irem_id by (try apply is_int_between; lia).
  rewrite Hinc. done.
Qed.

Lemma clip_and_redistribute_keeps_total_witness :
  ∃ hist',
    clip_and_redistribute 1 (uniform_histogram 7 64) = Some hist' ∧
    length hist' = 256%nat ∧
    Forall (λ b, 0 ≤ b) hist' ∧
    sum_bins hist' = sum_bins (uniform_histogram 7 64).
Proof.
  destruct (clip_and_redistribute_keeps_total 1 (uniform_histogram 7 64))
    as (clipped & excess & hist1 & hist' & _ & _ & _ & _ & Hrun & Hl & Hp & Htot).
  - reflexivity.
  - apply (bool_decide_unpack _). vm_compute. reflexivity.
  - vm_compute. discriminate.
  - unfold INT_MAX. lia.
  - exists hist'. split_and!; [exact Hrun | exact Hl | exact Hp | exact Htot].
Defined.

(** ** The lookup table of a tile *)

Lemma sum_bins_app (l k : list Z) : sum_bins (l ++ k) = sum_bins l + sum_bins k.
Proof.
  unfold sum_bins. induction l as [|b l IH]; simpl; [done|]. rewrite IH. lia.
Qed.

Lemma sum_bins_take_S (l : list Z) (i : nat) (h : Z) :
  l !! i = Some h → sum_bins (take (S i) l) = sum_bins (take i l) + h.
Proof.
  intros Hi. rewrite (take_S_r _ _ _ Hi), sum_bins_app.
  unfold sum_bins. simpl. lia.
Qed.

Lemma sum_bins_take_le (l : list Z) (i : nat) :
  Forall (λ b, 0 ≤ b) l → 0 ≤ sum_bins (take i l) ≤ sum_bins l.
Proof.
  intros Hpos.
  pose proof (sum_bins_nonneg (take i l) (Forall_take _ _ _ Hpos)).
  pose proof (sum_bins_nonneg (drop i l) (Forall_drop _ _ _ Hpos)).
  rewrite <- (take_drop i l) at 3. rewrite sum_bins_app. lia.
Qed.

Lemma sum_bins_take_mono (l : list Z) (i j : nat) :
  Forall (λ b, 0 ≤ b) l → (i ≤ j)%nat →
  sum_bins (take i l) ≤ sum_bins (take j l).
Proof.
  intros Hpos Hij.
  pose proof (sum_bins_take_le (take j l) i (Forall_take _ _ _ Hpos)) as Hle.
  rewrite take_take in Hle.
  replace (i `min` j)%nat with i in Hle by lia. lia.
Qed.

(** Lines 76-82: entry [i] of the table of a tile is [cdf_entry] of the
    sum of bins [0..i]; the entries of the other tiles are not touched. *)
Lemma build_cdf_spec (hist : list Z) (numPixelsPerTile base : Z)
    (cdfs : list Z) :
  length hist = 256%nat →
  Forall (λ b, 0 ≤ b) hist →
  sum_bins hist ≤ INT_MAX →
  0 ≤ base → base + 256 ≤ Z.of_nat (length cdfs) →
  ∃ cdfs',
    build_cdf hist numPixelsPerTile base cdfs = Some cdfs' ∧
    length cdfs' = length cdfs ∧
    (∀ i : nat, (i < 256)%nat →
       cdfs' !! (Z.to_nat base + i)%nat =
         Some (cdf_entry (sum_bins (take (S i) hist)) numPixelsPerTile)) ∧
    (∀ k : nat, (k < Z.to_nat base ∨ Z.to_nat base + 256 ≤ k)%nat →
       cdfs' !! k = cdfs !! k).
Proof.
  intros Hlen Hpos Hsum Hbase Hroom. unfold build_cdf.
  destruct (for_loop_invariant (λ i (st : list Z * Z),
      length st.1 = length cdfs ∧
      st.2 = sum_bins (take (Z.to_nat i) hist) ∧
      (∀ j : nat, Z.of_nat j < i →
         st.1 !! (Z.to_nat base + j)%nat =
           Some (cdf_entry (sum_bins (take (S j) hist)) numPixelsPerTile)) ∧
      (∀ k : nat, (k < Z.to_nat base ∨ Z.to_nat base + 256 ≤ k)%nat →
         st.1 !! k = cdfs !! k)) 0 NUM_BINS
    (λ i '(cdfs, cumSum),
      h ← vget hist i;
      let cumSum := iadd cumSum h in
      cdfs ← vset cdfs (base + i) (cdf_entry cumSum numPixelsPerTile);
      Some (cdfs, cumSum)) (cdfs, 0))
    as ([cdfs' cum] & Hrun & Hl & _ & Hin & Hout).
  - unfold NUM_BINS. lia.
  - simpl. split_and!; [done | done | intros; lia | done].
  - intros i [cur cum] Hi (Hl & Hcum & Hin & Hout). simpl in *.
    unfold NUM_BINS in Hi.
    destruct (vget_in_bounds hist i) as (h & Hget & Hh); [lia|].
    rewrite Hget. simpl.
    pose proof (sum_bins_take_S _ _ _ Hh) as HS.
    pose proof (sum_bins_take_le hist (S (Z.to_nat i)) Hpos) as Hle.
    assert (Hadd : iadd cum h = sum_bins (take (S (Z.to_nat i)) hist)).
    { rewrite iadd_id; [lia|]. apply is_int_between. lia. }
    rewrite Hadd, vset_in_bounds by lia. simpl.
    eexists. split; [done|]. simpl.
    split_and!.
    + by rewrite length_insert.
    + f_equal. f_equal. lia.
    + intros j Hj.
      destruct (decide (Z.of_nat j = i)) as [<- | Hne].
      * replace (Z.to_nat (base + Z.of_nat j)) with (Z.to_nat base + j)%nat
          by lia.
        rewrite list_lookup_insert_eq by lia. by rewrite Nat2Z.id.
      * rewrite list_lookup_insert_ne by lia. apply Hin. lia.
    + intros k Hk. rewrite list_lookup_insert_ne by lia. by apply Hout.
  - simpl in *. rewrite Hrun. simpl. exists cdfs'.
    split_and!; [done | done | | done].
    intros i Hi. apply Hin. unfold NUM_BINS. lia.
Qed.

Lemma tile_cdf_spec (hist : list Z) (numPixelsPerTile : Z) :
  length hist = 256%nat →
  Forall (λ b, 0 ≤ b) hist →
  sum_bins hist ≤ INT_MAX →
  ∃ table,
    tile_cdf hist numPixelsPerTile = Some table ∧
    length table = 256%nat ∧
    ∀ i : nat, (i < 256)%nat →
      table !! i =
        Some (cdf_entry (sum_bins (take (S i) hist)) numPixelsPerTile).
Proof.
  intros Hlen Hpos Hsum. unfold tile_cdf.
  destruct (build_cdf_spec hist numPixelsPerTile 0
              (replicate (Z.to_nat NUM_BINS) 0) Hlen Hpos Hsum)
    as (table & Hrun & Hl & Hin & _); [lia | by rewrite length_replicate |].
  exists table. split_and!; [done | by rewrite Hl, length_replicate |].
  intros i Hi. by apply Hin.
Qed.

(** While [cumSum * 255] fits an [int], line 81 computes the clamped
    quotient of the specification. *)
Lemma cdf_entry_exact (cumSum numPixelsPerTile : Z) :
  0 ≤ cumSum ≤ numPixelsPerTile →
  0 < numPixelsPerTile →
  numPixelsPerTile * 255 ≤ INT_MAX →
  cdf_entry cumSum numPixelsPerTile =
    clamp_exact (cumSum * 255 / numPixelsPerTile).
Proof.
  intros Hc Hn Hfit. unfold cdf_entry, clamp_exact, to_u8.
  rewrite imul_id by (apply is_int_between; nia).
  rewrite idiv_id by (try apply is_int_between; nia).
  assert (0 ≤ cumSum * 255 / numPixelsPerTile) by (apply Z.div_pos; nia).
  rewrite Z.mod_small by lia. lia.
Qed.

(** For tiles of at most 8421504 pixels the table is non-decreasing,
    its entries are bytes and its last entry is 255. *)
Lemma tile_cdf_monotone (hist : list Z) (numPixelsPerTile : Z) :
  length hist = 256%nat →
  Forall (λ b, 0 ≤ b) hist →
  sum_bins hist = numPixelsPerTile →
  0 < numPixelsPerTile →
  numPixelsPerTile * 255 ≤ INT_MAX →
  ∃ table,
    tile_cdf hist numPixelsPerTile = Some table ∧
    monotone table ∧ Forall is_u8 table ∧ table !! 255%nat = Some 255.
Proof.
  intros Hlen Hpos Hsum Hn Hfit.
  destruct (tile_cdf_spec hist numPixelsPerTile Hlen Hpos)
    as (table & Hrun & Hl & Hin); [unfold INT_MAX in *; lia|].
  assert (Hentry : ∀ i : nat, (i < 256)%nat →
    table !! i = Some (clamp_exact
      (sum_bins (take (S i) hist) * 255 / numPixelsPerTile))).
  { intros i Hi. rewrite (Hin i Hi). f_equal.
    pose proof (sum_bins_take_le hist (S i) Hpos).
    apply cdf_entry_exact; [lia | done | done]. }
  exists table. split_and!; [done | | |].
  - intros i j a b Hij Ha Hb.
    pose proof (lookup_lt_Some _ _ _ Hb) as Hj.
    rewrite Hentry in Ha, Hb by lia.
    injection Ha as <-. injection Hb as <-.
    pose proof (sum_bins_take_mono hist (S i) (S j) Hpos ltac:(lia)) as Hm.
    assert (sum_bins (take (S i) hist) * 255 / numPixelsPerTile
            ≤ sum_bins (take (S j) hist) * 255 / numPixelsPerTile)
      by (apply Z.div_le_mono; lia).
    unfold clamp_exact. lia.
  - apply Forall_forall. intros a [i Hi]%list_elem_of_lookup.
    pose proof (lookup_lt_Some _ _ _ Hi) as Hlt.
    rewrite Hentry in Hi by lia. injection Hi as <-.
    unfold is_u8, clamp_exact. lia.
  - rewrite Hentry by lia. f_equal.
    rewrite take_ge by lia. rewrite Hsum.
    rewrite Z.mul_comm, Z.div_mul by lia. reflexivity.
Qed.

(** ** The histogram of a tile *)

(** The pixels of a tile lie inside the buffer, at offsets that fit an
    [int]. *)
Lemma tile_offset_bounds (len width startX startY tileW tileH x y : Z) :
  0 ≤ startX → 0 ≤ startY →
  startX + tileW ≤ width →
  (startY + tileH) * width ≤ len → len ≤ INT_MAX →
  startX ≤ x < startX + tileW → startY ≤ y < startY + tileH →
  is_int (y * width) ∧ is_int (y * width + x) ∧ 0 ≤ y * width + x < len.
Proof.
  intros Hsx Hsy Hw Hlen Hmax Hx Hy.
  assert (y * width ≤ (startY + tileH - 1) * width)
    by (apply Z.mul_le_mono_nonneg_r; lia).
  assert (0 ≤ y * width) by (apply Z.mul_nonneg_nonneg; lia).
  int_range.
Qed.

Lemma tile_extent_is_int (len width start tile : Z) :
  0 ≤ start → 0 < tile → 0 < width →
  (start + tile) * width ≤ len → len ≤ INT_MAX →
  is_int (start + tile).
Proof.
  intros Hs Ht Hw Hlen Hmax.
  assert (start + tile ≤ (start + tile) * width) by nia.
  int_range.
Qed.

(** Lines 46-55: the histogram of a tile has 256 non-negative bins whose
    total is the number of pixels of the tile. *)
Lemma build_histogram_spec (data : list Z)
    (width startX startY tileW tileH : Z) :
  Forall is_u8 data →
  0 ≤ startX → 0 ≤ startY → 0 < tileW → 0 < tileH →
  startX + tileW ≤ width →
  (startY + tileH) * width ≤ Z.of_nat (length data) →
  Z.of_nat (length data) ≤ INT_MAX →
  ∃ hist,
    build_histogram data width startX startY tileW tileH = Some hist ∧
    length hist = 256%nat ∧ Forall (λ b, 0 ≤ b) hist ∧
    sum_bins hist = tileW * tileH.
Proof.
  intros Hbytes Hsx Hsy Htw Hth Hw Hlen Hmax. unfold build_histogram.
  assert (Hwidth : 0 < width) by lia.
  assert (HtW : tileW ≤ width) by lia.
  assert (Harea : tileW * tileH ≤ INT_MAX) by nia.
  rewrite (iadd_id startY), (iadd_id startX).
  2: { apply (tile_extent_is_int INT_MAX 1); unfold INT_MAX in *; nia. }
  2: { by apply (tile_extent_is_int (Z.of_nat (length data)) width). }
  destruct (for_loop_invariant (λ y (hist : list Z),
      length hist = 256%nat ∧ Forall (λ b, 0 ≤ b) hist ∧
      sum_bins hist = (y - startY) * tileW) startY (startY + tileH)
    (λ y hist,
      for_loop startX (startX + tileW) (λ x hist,
        pixel ← vget data (iadd (imul y width) x);
        count ← vget hist pixel;
        vset hist pixel (iadd count 1)) hist)
    (replicate (Z.to_nat NUM_BINS) 0))
    as (hist & Hrun & Hl & Hp & Htot).
  - lia.
  - split_and!; [done | by apply Forall_replicate | ].
    replace (startY - startY) with 0 by lia. reflexivity.
  - intros y row Hy (Hl & Hp & Htot).
    destruct (for_loop_invariant (λ x (hist : list Z),
        length hist = 256%nat ∧ Forall (λ b, 0 ≤ b) hist ∧
        sum_bins hist = (y - startY) * tileW + (x - startX))
      startX (startX + tileW)
      (λ x hist,
        pixel ← vget data (iadd (imul y width) x);
        count ← vget hist pixel;
        vset hist pixel (iadd count 1)) row)
      as (row' & Hrun' & Hl' & Hp' & Htot').
    + lia.
    + split_and!; [done | done | lia].
    + intros x cur Hx (Hlc & Hpc & Htc).
      destruct (tile_offset_bounds (Z.of_nat (length data)) width startX startY
                  tileW tileH x y) as (Hi1 & Hi2 & Hidx); try done.
      rewrite imul_id, iadd_id by done.
      destruct (vget_in_bounds data (y * width + x) Hidx) as (p & -> & Hp0).
      simpl.
      assert (Hu8 : is_u8 p).
      { rewrite Forall_forall in Hbytes. apply Hbytes.
        by eapply list_elem_of_lookup_2. }
      unfold is_u8 in Hu8.
      destruct (vget_in_bounds cur p) as (c & -> & Hc); [lia|]. simpl.
      pose proof (sum_bins_lookup_le _ _ _ Hpc Hc) as Hcle.
      assert ((y - startY) * tileW ≤ (tileH - 1) * tileW)
        by (apply Z.mul_le_mono_nonneg_r; lia).
      rewrite iadd_id by (apply is_int_between; nia).
      rewrite vset_in_bounds by lia.
      eexists. split; [done|].
      split_and!; [by rewrite length_insert
                  | apply Forall_insert; [done | lia] |].
      rewrite (sum_bins_insert _ _ _ _ Hc). lia.
    + exists row'. split; [done|]. split_and!; [done | done | lia].
  - exists hist. split; [done|]. split_and!; [done | done | lia].
Qed.

Lemma uniform_histogram_zero (v : Z) :
  uniform_histogram v 0 = replicate (Z.to_nat NUM_BINS) 0.
Proof. unfold uniform_histogram. apply insert_replicate. Qed.

Lemma uniform_histogram_bump (v n : Z) :
  <[Z.to_nat v := n + 1]> (uniform_histogram v n) = uniform_histogram v (n + 1).
Proof. unfold uniform_histogram. apply list_insert_insert_eq. Qed.

Lemma uniform_histogram_lookup (v n : Z) :
  is_u8 v → uniform_histogram v n !! Z.to_nat v = Some n.
Proof.
  intros Hv. unfold uniform_histogram, is_u8 in *.
  apply list_lookup_insert_eq. rewrite length_replicate. unfold NUM_BINS. lia.
Qed.

Lemma uniform_histogram_length (v n : Z) :
  length (uniform_histogram v n) = 256%nat.
Proof. unfold uniform_histogram. by rewrite length_insert, length_replicate. Qed.

(** The histogram of a tile whose pixels all carry [v] has the whole
    count in bin [v]. *)
Lemma build_histogram_uniform (data : list Z)
    (width startX startY tileW tileH v : Z) :
  is_u8 v →
  (∀ x y, startX ≤ x < startX + tileW → startY ≤ y < startY + tileH →
     vget data (iadd (imul y width) x) = Some v) →
  0 ≤ startX → 0 ≤ startY → 0 < tileW → 0 < tileH →
  is_int (startX + tileW) → is_int (startY + tileH) →
  tileW * tileH ≤ INT_MAX →
  build_histogram data width startX startY tileW tileH =
    Some (uniform_histogram v (tileW * tileH)).
Proof.
  intros Hv Hdata Hsx Hsy Htw Hth HiX HiY Harea. unfold build_histogram.
  rewrite (iadd_id startY), (iadd_id startX) by done.
  destruct (for_loop_invariant (λ y (hist : list Z),
      hist = uniform_histogram v ((y - startY) * tileW))
      startY (startY + tileH)
    (λ y hist,
      for_loop startX (startX + tileW) (λ x hist,
        pixel ← vget data (iadd (imul y width) x);
        count ← vget hist pixel;
        vset hist pixel (iadd count 1)) hist)
    (replicate (Z.to_nat NUM_BINS) 0))
    as (hist & Hrun & ->).
  - lia.
  - replace (startY - startY) with 0 by lia. simpl.
    by rewrite uniform_histogram_zero.
  - intros y row Hy ->.
    destruct (for_loop_invariant (λ x (hist : list Z),
        hist = uniform_histogram v ((y - startY) * tileW + (x - startX)))
      startX (startX + tileW)
      (λ x hist,
        pixel ← vget data (iadd (imul y width) x);
        count ← vget hist pixel;
        vset hist pixel (iadd count 1))
      (uniform_histogram v ((y - startY) * tileW)))
      as (row' & Hrun' & ->).
    + lia.
    + f_equal. lia.
    + intros x cur Hx ->.
      rewrite Hdata by lia. simpl.
      rewrite vget_lookup, uniform_histogram_lookup by (unfold is_u8 in Hv; lia || done).
      simpl.
      assert ((y - startY) * tileW ≤ (tileH - 1) * tileW)
        by (apply Z.mul_le_mono_nonneg_r; lia).
      rewrite iadd_id by (apply is_int_between; nia).
      rewrite vset_in_bounds
        by (rewrite uniform_histogram_length; unfold is_u8 in Hv; lia).
      eexists. split; [done|].
      rewrite uniform_histogram_bump. f_equal. lia.
    + eexists. split; [exact Hrun'|]. f_equal. lia.
  - rewrite Hrun. do 2 f_equal. lia.
Qed.

(** ** Conversions and the clip count *)

Lemma double_to_int_is_int (d : float) : is_int (double_to_int d).
Proof.
  unfold double_to_int. destruct (trunc d) as [z|].
  - case_decide; [done|]. unfold is_int, INT_MIN, INT_MAX. lia.
  - unfold is_int, INT_MIN, INT_MAX. lia.
Qed.

Lemma clip_count_bounds (clipLimit : float) (numPixelsPerTile : Z) :
  1 ≤ clip_count clipLimit numPixelsPerTile ≤ INT_MAX.
Proof.
  unfold clip_count.
  pose proof (double_to_int_is_int
    (clipLimit * of_int numPixelsPerTile / of_int NUM_BINS)) as Hd.
  int_range.
Qed.

(** ** The final clamp *)

Lemma digits2_pos_bound (m : positive) : Z.pos m < 2 ^ Z.pos (digits2_pos m).
Proof.
  induction m as [m IH | m IH |]; cbn [digits2_pos].
  - rewrite Pos2Z.inj_succ, Z.pow_succ_r by lia. lia.
  - rewrite Pos2Z.inj_succ, Z.pow_succ_r by lia. lia.
  - reflexivity.
Qed.

(** The mantissa of a binary64 number has at most 53 bits. *)
Lemma valid_mantissa_bound (s : bool) (m : positive) (e : Z) :
  valid_binary (S754_finite s m e) = true → Z.pos m < 2 ^ 53.
Proof.
  unfold valid_binary, bounded, canonical_mantissa, fexp, emin, prec, emax.
  intros [Hcan _]%andb_true_iff. apply Z.eqb_eq in Hcan.
  pose proof (digits2_pos_bound m) as Hd.
  assert (Z.pos (digits2_pos m) ≤ 53) by lia.
  eapply Z.lt_le_trans; [exact Hd|].
  apply Z.pow_le_mono_r; lia.
Qed.

(** A double strictly between 0 and 255 truncates to an integer of
    [[0, 254]]. *)
Lemma trunc_between_0_and_255 (d : float) :
  (0 <? d)%float = true → (d <? 255)%float = true →
  ∃ z, trunc d = Some z ∧ 0 ≤ z ≤ 254.
Proof.
  rewrite !ltb_spec. unfold trunc.
  pose proof (Prim2SF_valid d) as Hvalid.
  change (Prim2SF 0) with (S754_zero false).
  change (Prim2SF 255) with (S754_finite false 8972014882652160 (-45)).
  destruct (Prim2SF d) as [s | s | | s m e]; try discriminate.
  - destruct s; discriminate.
  - unfold SFltb, SFcompare. destruct s; [discriminate|]. intros _.
    pose proof (valid_mantissa_bound _ _ _ Hvalid) as Hm.
    destruct (Z.compare_spec e (-45)) as [Heq | He | He]; try discriminate.
    + subst e. intros Hlt.
      assert (Hcmp : Z.pos m < 8972014882652160).
      { unfold Z.lt. cbn [Z.compare]. unfold Pos.compare.
        destruct (Pos.compare_cont Eq m 8972014882652160); done. }
      exists (Z.pos m / 2 ^ 45). split; [reflexivity|].
      split; [apply Z.div_pos; lia|].
      assert (Z.pos m / 2 ^ 45 < 255); [|lia].
      apply Z.div_lt_upper_bound; lia.
    + intros _. replace (0 <=? e) with false by lia.
      eexists. split; [reflexivity|].
      split; [apply Z.div_pos; lia|].
      assert (Z.pos m / 2 ^ (- e) < 128); [|lia].
      apply Z.div_lt_upper_bound; [lia|].
      assert (2 ^ 46 ≤ 2 ^ (- e)) by (apply Z.pow_le_mono_r; lia).
      lia.
Qed.

(** Lines 124-125: the clamp with [std::min] and [std::max] brings every
    double, [NaN] and the infinities included, to a value whose
    truncation lies in [[0, 255]]; the conversion to a byte then changes
    nothing. *)
Lemma clamp_to_byte (d : float) :
  0 ≤ double_to_int (dmax 0 (dmin 255 d)) ≤ 255 ∧
  double_to_u8 (dmax 0 (dmin 255 d)) = double_to_int (dmax 0 (dmin 255 d)).
Proof.
  assert (Hrange : 0 ≤ double_to_int (dmax 0 (dmin 255 d)) ≤ 255).
  { unfold dmin. destruct (d <? 255)%float eqn:Hhi.
    - unfold dmax. destruct (0 <? d)%float eqn:Hlo.
      + destruct (trunc_between_0_and_255 d Hlo Hhi) as (z & Hz & Hb).
        unfold double_to_int. rewrite Hz.
        rewrite decide_True by (unfold INT_MIN, INT_MAX; lia). lia.
      + change (double_to_int 0) with 0. lia.
    - change (dmax 0 255) with 255%float.
      change (double_to_int 255) with 255. lia. }
  split; [exact Hrange|].
  unfold double_to_u8, to_u8. apply Z.mod_small. lia.
Qed.

Lemma blend_is_u8 (v00 v01 v10 v11 : Z) (cax cay : float) :
  is_u8 (blend v00 v01 v10 v11 cax cay).
Proof. unfold blend, double_to_u8. apply to_u8_is_u8. Qed.

(** ** Step 1: the tables of all tiles *)

Section Step1.

Variables (data : list Z) (width height tilesX tilesY clipCount : Z).
Hypothesis Hvalid : valid_input data width height tilesX tilesY.

Local Abbreviation tileW := (width / tilesX).
Local Abbreviation tileH := (height / tilesY).
Local Abbreviation numPixels := (tileW * tileH).
Local Abbreviation tile_filled :=
  (tile_filled data width tilesX tileW tileH numPixels clipCount).

Lemma tiles_cover_width : tilesX * tileW ≤ width.
Proof using Hvalid. destruct Hvalid. apply Z.mul_div_le. lia. Qed.

Lemma tiles_cover_height : tilesY * tileH ≤ height.
Proof using Hvalid. destruct Hvalid. apply Z.mul_div_le. lia. Qed.

Lemma idiv_width : idiv width tilesX = tileW.
Proof using Hvalid.
  destruct Hvalid. apply idiv_id; [lia | lia |].
  apply is_int_between. nia.
Qed.

Lemma idiv_height : idiv height tilesY = tileH.
Proof using Hvalid.
  destruct Hvalid. apply idiv_id; [lia | lia |].
  apply is_int_between. nia.
Qed.

Lemma tile_area_bounds : 0 < numPixels ∧ numPixels ≤ INT_MAX.
Proof using Hvalid.
  pose proof tiles_cover_width. pose proof tiles_cover_height.
  destruct Hvalid. split; [nia|].
  assert (tileW * tileH ≤ width * height); [|lia].
  apply Z.mul_le_mono_nonneg; nia.
Qed.

Lemma imul_tile_area : imul tileW tileH = numPixels.
Proof using Hvalid.
  pose proof tile_area_bounds. apply imul_id, is_int_between. lia.
Qed.

Lemma tile_start_bounds (tiles tile extent t : Z) :
  0 < tile → tiles * tile ≤ extent → 0 ≤ t < tiles →
  0 ≤ t * tile ∧ t * tile + tile ≤ extent.
Proof using Type. intros. nia. Qed.

Lemma tile_base_exact (ty tx : Z) :
  0 ≤ ty < tilesY → 0 ≤ tx < tilesX →
  tile_base tilesX ty tx = (ty * tilesX + tx) * 256 ∧
  0 ≤ (ty * tilesX + tx) * 256 ∧
  (ty * tilesX + tx) * 256 + 256 ≤ tilesX * tilesY * 256.
Proof using Hvalid.
  intros Hty Htx. destruct Hvalid.
  assert (ty * tilesX + tx + 1 ≤ tilesY * tilesX) by nia.
  assert (0 ≤ ty * tilesX) by nia.
  unfold tile_base, NUM_BINS.
  rewrite (imul_id ty), iadd_id, imul_id by (apply is_int_between; nia).
  lia.
Qed.

Hypothesis Hclip : 1 ≤ clipCount ≤ INT_MAX.

(** One iteration of lines 45-83. *)
Lemma tile_step (cdfs : list Z) (ty tx : Z) :
  0 ≤ ty < tilesY → 0 ≤ tx < tilesX →
  Z.of_nat (length cdfs) = tilesX * tilesY * 256 →
  ∃ cdfs',
    (hist ← build_histogram data width (imul tx tileW) (imul ty tileH)
              tileW tileH;
     hist ← clip_and_redistribute clipCount hist;
     build_cdf hist numPixels (tile_base tilesX ty tx) cdfs) = Some cdfs' ∧
    length cdfs' = length cdfs ∧
    tile_filled cdfs' ty tx ∧
    (∀ k : nat, (k < tile_offset tilesX ty tx
                 ∨ tile_offset tilesX ty tx + 256 ≤ k)%nat →
       cdfs' !! k = cdfs !! k).
Proof using Hvalid Hclip.
  intros Hty Htx Hlen.
  pose proof tiles_cover_width as HcW. pose proof tiles_cover_height as HcH.
  pose proof tile_area_bounds as [Hpos Harea].
  destruct (tile_base_exact ty tx Hty Htx) as (Hbase & Hb0 & Hb1).
  destruct Hvalid.
  destruct (tile_start_bounds tilesX tileW width tx) as [Hx0 Hx1]; try done.
  destruct (tile_start_bounds tilesY tileH height ty) as [Hy0 Hy1]; try done.
  rewrite (imul_id tx), (imul_id ty) by (apply is_int_between; nia).
  destruct (build_histogram_spec data width (tx * tileW) (ty * tileH)
              tileW tileH) as (hist & Hhist & Hl & Hp & Hs); try done; try lia.
  { rewrite valid_length0, (Z.mul_comm width).
    apply Z.mul_le_mono_nonneg_r; lia. }
  destruct (clip_and_redistribute_spec clipCount hist)
    as (hist' & Hclipped & Hl' & Hp' & Hs'); try done; try lia.
  destruct (build_cdf_spec hist' numPixels (tile_base tilesX ty tx) cdfs)
    as (cdfs' & Hcdf & Hlc & Hin & Hout); try done; try lia.
  destruct (tile_cdf_spec hist' numPixels) as (table & Htab & Hlt & Hent);
    try done; try lia.
  exists cdfs'. rewrite Hhist. simpl. rewrite Hclipped. simpl.
  split_and!; [exact Hcdf | exact Hlc | | ].
  - exists table. split_and!; [|exact Hlt|].
    + unfold tile_table.
      rewrite (imul_id tx), (imul_id ty) by (apply is_int_between; nia).
      rewrite Hhist. simpl. rewrite Hclipped. simpl. exact Htab.
    + intros i Hi. rewrite (Hent i Hi). unfold tile_offset.
      rewrite <- Hbase. by apply Hin.
  - intros k Hk. apply Hout. unfold tile_offset in Hk. by rewrite Hbase.
Qed.

Lemma tile_filled_frame (cdfs cdfs' : list Z) (ty tx : Z) :
  (∀ i : nat, (i < 256)%nat →
     cdfs' !! (tile_offset tilesX ty tx + i)%nat
       = cdfs !! (tile_offset tilesX ty tx + i)%nat) →
  tile_filled cdfs ty tx → tile_filled cdfs' ty tx.
Proof using Type.
  intros Hsame (table & Htab & Hl & Hent).
  exists table. split_and!; [exact Htab | exact Hl |].
  intros i Hi. rewrite Hsame by done. by apply Hent.
Qed.

Lemma tile_offset_lt (ty tx ty' tx' : Z) :
  0 ≤ tx < tilesX → 0 ≤ tx' < tilesX → 0 ≤ ty → 0 ≤ ty' →
  ty' < ty ∨ (ty' = ty ∧ tx' < tx) →
  (tile_offset tilesX ty' tx' + 256 ≤ tile_offset tilesX ty tx)%nat.
Proof using Type.
  intros Htx Htx' Hty Hty' Hlt. unfold tile_offset.
  assert (ty' * tilesX + tx' + 1 ≤ ty * tilesX + tx) by nia.
  assert (0 ≤ ty' * tilesX) by nia.
  lia.
Qed.

(** Lines 44-84: every tile of the grid receives its table. *)
Lemma build_cdfs_spec (cdfs : list Z) :
  Z.of_nat (length cdfs) = tilesX * tilesY * 256 →
  ∃ cdfs',
    build_cdfs data width tilesX tilesY tileW tileH numPixels clipCount cdfs
      = Some cdfs' ∧
    length cdfs' = length cdfs ∧
    ∀ ty tx, 0 ≤ ty < tilesY → 0 ≤ tx < tilesX → tile_filled cdfs' ty tx.
Proof using Hvalid Hclip.
  intros Hlen. unfold build_cdfs.
  destruct Hvalid as [_ _ HtX HtY _ _ _ _ _ _].
  apply (for_loop_invariant (λ ty (cur : list Z),
    length cur = length cdfs ∧
    ∀ ty' tx', 0 ≤ ty' < ty → 0 ≤ tx' < tilesX → tile_filled cur ty' tx')
    0 tilesY); [lia | | ].
  - split; [done|]. intros; lia.
  - intros ty cur Hty [Hl Hdone].
    destruct (for_loop_invariant (λ tx (cur' : list Z),
      length cur' = length cdfs ∧
      (∀ ty' tx', 0 ≤ ty' < ty → 0 ≤ tx' < tilesX → tile_filled cur' ty' tx') ∧
      (∀ tx', 0 ≤ tx' < tx → tile_filled cur' ty tx'))
      0 tilesX
      (λ tx cdfs,
        let startX := imul tx tileW in
        let startY := imul ty tileH in
        hist ← build_histogram data width startX startY tileW tileH;
        hist ← clip_and_redistribute clipCount hist;
        build_cdf hist numPixels (tile_base tilesX ty tx) cdfs) cur)
      as (cur' & Hrun & Hl' & Hprev & Hrow).
    + lia.
    + split_and!; [done | done | intros; lia].
    + intros tx row Htx (Hlr & Hprev & Hrow). cbn zeta.
      destruct (tile_step row ty tx Hty Htx) as (row' & Hstep & Hlr' & Hfill & Hframe);
        [lia|].
      exists row'. split; [exact Hstep|].
      split_and!; [lia | |].
      * intros ty' tx' Hty' Htx'.
        apply (tile_filled_frame row); [|by apply Hprev].
        intros i Hi. apply Hframe. left.
        pose proof (tile_offset_lt ty tx ty' tx'). lia.
      * intros tx' Htx'.
        destruct (decide (tx' = tx)) as [-> | Hne]; [done|].
        apply (tile_filled_frame row); [|apply Hrow; lia].
        intros i Hi. apply Hframe. left.
        pose proof (tile_offset_lt ty tx ty tx'). lia.
    + exists cur'. split; [exact Hrun|]. split; [done|].
      intros ty' tx' Hty' Htx'.
      destruct (decide (ty' = ty)) as [-> | Hne]; [by apply Hrow|].
      apply Hprev; lia.
Qed.

End Step1.

(** ** Step 2: the reconstruction *)

Lemma bind_Some {A B : Type} (x : A) (f : A → option B) :
  (Some x ≫= f) = f x.
Proof. reflexivity. Qed.

Lemma first_tile_bounds (f : float) (tiles : Z) :
  2 ≤ tiles ≤ INT_MAX → 0 ≤ first_tile f tiles ≤ tiles - 2.
Proof.
  intros Ht. unfold first_tile.
  rewrite isub_id by int_range. lia.
Qed.

(** With a single tile along an axis the clamp of lines 103-104 yields
    tile 0, whose successor does not exist. *)
Lemma first_tile_single (f : float) : first_tile f 1 = 0.
Proof. unfold first_tile. change (isub 1 2) with (-1). lia. Qed.

Section Step2.

Variables (data : list Z) (width height tilesX tilesY : Z) (cdfs : list Z).
Hypothesis Hvalid : valid_input data width height tilesX tilesY.

Local Abbreviation tileW := (width / tilesX).
Local Abbreviation tileH := (height / tilesY).
Local Abbreviation pixel_done :=
  (pixel_done data cdfs width tilesX tilesY tileW tileH).

Lemma tile_counts_are_int : tilesX ≤ INT_MAX ∧ tilesY ≤ INT_MAX.
Proof using Hvalid. destruct Hvalid. unfold INT_MAX in *. nia. Qed.

(** Lines 115-118: inside the grid the flat index is exact and lies
    inside the table. *)
Lemma cdf_index_exact (ty tx pixel : Z) :
  0 ≤ ty < tilesY → 0 ≤ tx < tilesX → is_u8 pixel →
  cdf_index tilesX ty tx pixel = (ty * tilesX + tx) * 256 + pixel ∧
  0 ≤ (ty * tilesX + tx) * 256 + pixel < tilesX * tilesY * 256.
Proof using Hvalid.
  intros Hty Htx Hp. unfold is_u8 in Hp.
  destruct (tile_base_exact data width height tilesX tilesY Hvalid ty tx
              Hty Htx) as (Hbase & Hb0 & Hb1).
  destruct Hvalid.
  unfold cdf_index. rewrite Hbase, iadd_id by (apply is_int_between; lia).
  lia.
Qed.

Lemma pixel_offset_bounds (x y : Z) :
  0 ≤ x < width → 0 ≤ y < height →
  is_int (y * width) ∧ is_int (y * width + x) ∧
  0 ≤ y * width + x < width * height.
Proof using Hvalid.
  intros Hx Hy. destruct Hvalid.
  assert (y * width ≤ (height - 1) * width)
    by (apply Z.mul_le_mono_nonneg_r; lia).
  assert (0 ≤ y * width) by (apply Z.mul_nonneg_nonneg; lia).
  int_range.
Qed.

Lemma pixel_offset_lt (x y x' y' : Z) :
  0 ≤ x < width → 0 ≤ x' < width → 0 ≤ y → 0 ≤ y' →
  y' < y ∨ (y' = y ∧ x' < x) →
  y' * width + x' < y * width + x.
Proof using Type. intros. nia. Qed.

Lemma pixel_done_frame (out : list Z) (x y x' y' v : Z) :
  0 ≤ y' * width + x' → 0 ≤ y * width + x →
  y' * width + x' ≠ y * width + x →
  pixel_done out x' y' →
  pixel_done (<[Z.to_nat (y * width + x) := v]> out) x' y'.
Proof using Type.
  intros Hpos Hpos' Hne (pixel & w & Hd & Hi & Ho).
  exists pixel, w. split_and!; [exact Hd | exact Hi |].
  rewrite list_lookup_insert_ne by lia. exact Ho.
Qed.

Hypothesis Hcdfs : Z.of_nat (length cdfs) = tilesX * tilesY * 256.

Lemma cdf_fetch (ty tx pixel : Z) :
  0 ≤ ty < tilesY → 0 ≤ tx < tilesX → is_u8 pixel →
  ∃ v,
    vget cdfs (cdf_index tilesX ty tx pixel) = Some v ∧
    cdfs !! (tile_offset tilesX ty tx + Z.to_nat pixel)%nat = Some v.
Proof using Hvalid Hcdfs.
  intros Hty Htx Hp.
  destruct (cdf_index_exact ty tx pixel Hty Htx Hp) as [Hidx Hin].
  destruct (vget_in_bounds cdfs (cdf_index tilesX ty tx pixel))
    as (v & Hget & Hv); [lia|].
  exists v. split; [exact Hget|].
  rewrite <- Hv. f_equal. rewrite Hidx. unfold tile_offset.
  unfold is_u8 in Hp. nia.
Qed.

Hypothesis HtwoX : 2 ≤ tilesX.
Hypothesis HtwoY : 2 ≤ tilesY.

(** Lines 92-125: with at least two tiles along both axes the four
    fetches are defined and the pixel receives their blend. *)
Lemma interpolate_defined (x y pixel : Z) :
  is_u8 pixel →
  let tx0 := first_tile (tile_coord x tileW) tilesX in
  let ty0 := first_tile (tile_coord y tileH) tilesY in
  0 ≤ tx0 ≤ tilesX - 2 ∧ 0 ≤ ty0 ≤ tilesY - 2 ∧
  ∃ v00 v01 v10 v11,
    cdfs !! (tile_offset tilesX ty0 tx0 + Z.to_nat pixel)%nat = Some v00 ∧
    cdfs !! (tile_offset tilesX ty0 (tx0 + 1) + Z.to_nat pixel)%nat
      = Some v01 ∧
    cdfs !! (tile_offset tilesX (ty0 + 1) tx0 + Z.to_nat pixel)%nat
      = Some v10 ∧
    cdfs !! (tile_offset tilesX (ty0 + 1) (tx0 + 1) + Z.to_nat pixel)%nat
      = Some v11 ∧
    interpolate cdfs tilesX tilesY tileW tileH x y pixel =
      Some (blend v00 v01 v10 v11
              (weight (tile_coord x tileW) tx0)
              (weight (tile_coord y tileH) ty0)).
Proof using Hvalid HtwoX HtwoY Hcdfs.
  intros Hp tx0 ty0.
  pose proof tile_counts_are_int as [HiX HiY].
  pose proof (first_tile_bounds (tile_coord x tileW) tilesX ltac:(lia)) as Hx0.
  pose proof (first_tile_bounds (tile_coord y tileH) tilesY ltac:(lia)) as Hy0.
  fold tx0 in Hx0. fold ty0 in Hy0.
  split; [exact Hx0|]. split; [exact Hy0|].
  destruct (cdf_fetch ty0 tx0 pixel) as (v00 & Hg00 & Hl00); [lia | lia | done |].
  destruct (cdf_fetch ty0 (tx0 + 1) pixel) as (v01 & Hg01 & Hl01);
    [lia | lia | done |].
  destruct (cdf_fetch (ty0 + 1) tx0 pixel) as (v10 & Hg10 & Hl10);
    [lia | lia | done |].
  destruct (cdf_fetch (ty0 + 1) (tx0 + 1) pixel) as (v11 & Hg11 & Hl11);
    [lia | lia | done |].
  exists v00, v01, v10, v11.
  split_and!; [exact Hl00 | exact Hl01 | exact Hl10 | exact Hl11 |].
  unfold interpolate. fold tx0 ty0.
  rewrite !(iadd_id _ 1)
    by int_range.
  rewrite Hg00, bind_Some, Hg01, bind_Some, Hg10, bind_Some, Hg11, bind_Some.
  reflexivity.
Qed.

(** Lines 90-127: every pixel of the output is the interpolation of the
    pixel of the input at the same place. *)
Lemma reconstruct_spec (output : list Z) :
  Z.of_nat (length output) = width * height →
  ∃ out,
    reconstruct data cdfs width height tilesX tilesY tileW tileH output
      = Some out ∧
    length out = length output ∧
    ∀ x y, 0 ≤ x < width → 0 ≤ y < height → pixel_done out x y.
Proof using Hvalid HtwoX HtwoY Hcdfs.
  intros Hlen. unfold reconstruct.
  pose proof (valid_width _ _ _ _ _ Hvalid) as Hw.
  pose proof (valid_height _ _ _ _ _ Hvalid) as Hh.
  apply (for_loop_invariant (λ y (cur : list Z),
    length cur = length output ∧
    ∀ x' y', 0 ≤ x' < width → 0 ≤ y' < y → pixel_done cur x' y')
    0 height); [lia | | ].
  - split; [done|]. intros; lia.
  - intros y cur Hy [Hl Hrows].
    destruct (for_loop_invariant (λ x (cur' : list Z),
      length cur' = length output ∧
      (∀ x' y', 0 ≤ x' < width → 0 ≤ y' < y → pixel_done cur' x' y') ∧
      (∀ x', 0 ≤ x' < x → pixel_done cur' x' y))
      0 width
      (λ x output,
        pixel ← vget data (iadd (imul y width) x);
        v ← interpolate cdfs tilesX tilesY tileW tileH x y pixel;
        vset output (iadd (imul y width) x) v) cur)
      as (cur' & Hrun & Hl' & Hprev & Hrow).
    + lia.
    + split_and!; [done | done | intros; lia].
    + intros x row Hx (Hlr & Hprev & Hrow).
      destruct (pixel_offset_bounds x y Hx Hy) as (Hi1 & Hi2 & Hidx).
      rewrite imul_id, iadd_id by done.
      destruct (vget_in_bounds data (y * width + x)) as (pixel & -> & Hpix).
      { rewrite (valid_length _ _ _ _ _ Hvalid). exact Hidx. }
      rewrite bind_Some.
      assert (Hu8 : is_u8 pixel).
      { pose proof (valid_bytes _ _ _ _ _ Hvalid) as Hb.
        rewrite Forall_forall in Hb. apply Hb.
        by eapply list_elem_of_lookup_2. }
      destruct (interpolate_defined x y pixel Hu8)
        as (_ & _ & v00 & v01 & v10 & v11 & _ & _ & _ & _ & Hint).
      rewrite Hint, bind_Some.
      rewrite vset_in_bounds by lia.
      eexists. split; [reflexivity|].
      split_and!.
      * by rewrite length_insert.
      * intros x' y' Hx' Hy'.
        pose proof (pixel_offset_lt x y x' y').
        pose proof (pixel_offset_bounds x' y' Hx' ltac:(lia)).
        apply pixel_done_frame; [lia | lia | lia | by apply Hprev].
      * intros x' Hx'.
        destruct (decide (x' = x)) as [-> | Hne].
        -- exists pixel. eexists. split_and!; [exact Hpix | exact Hint |].
           apply list_lookup_insert_eq. lia.
        -- pose proof (pixel_offset_lt x y x' y).
           pose proof (pixel_offset_bounds x' y ltac:(lia) Hy).
           apply pixel_done_frame; [lia | lia | lia | apply Hrow; lia].
    + exists cur'. split; [exact Hrun|]. split; [done|].
      intros x' y' Hx' Hy'.
      destruct (decide (y' = y)) as [-> | Hne]; [by apply Hrow|].
      apply Hprev; lia.
Qed.

End Step2.

(** ** The whole call on a grid of at least 2x2 tiles *)

Lemma memcpy_whole (dst src : list Z) (n : Z) :
  Z.of_nat (length src) = n → Z.of_nat (length dst) = n →
  memcpy dst src n = Some src.
Proof.
  intros Hs Hd. unfold memcpy. rewrite decide_True by lia.
  rewrite take_ge, drop_ge by lia. by rewrite app_nil_r.
Qed.

(** [applyCLAHE] on a valid input with at least two tiles along both
    axes: the run is defined, allocates the table and the output buffer,
    fills the table with the lookup table of every tile, and replaces
    every pixel by the interpolation computed from the original pixel. *)
Lemma applyCLAHE_spec (data : list Z) (width height tilesX tilesY : Z)
    (clipLimit : float) :
  valid_input data width height tilesX tilesY →
  2 ≤ tilesX → 2 ≤ tilesY →
  ∃ cdfs out,
    Z.of_nat (length cdfs) = tilesX * tilesY * 256 ∧
    (∀ ty tx, 0 ≤ ty < tilesY → 0 ≤ tx < tilesX →
       tile_filled data width tilesX (width / tilesX) (height / tilesY)
         (width / tilesX * (height / tilesY))
         (clip_count clipLimit (width / tilesX * (height / tilesY)))
         cdfs ty tx) ∧
    applyCLAHE (Some data) width height tilesX tilesY clipLimit =
      Some (Effect (Some out) [tilesX * tilesY * 256; width * height]) ∧
    length out = length data ∧
    ∀ x y, 0 ≤ x < width → 0 ≤ y < height →
      pixel_done data cdfs width tilesX tilesY
        (width / tilesX) (height / tilesY) out x y.
Proof.
  intros Hvalid HtwoX HtwoY.
  pose proof (clip_count_bounds clipLimit
                (width / tilesX * (height / tilesY))) as Hclip.
  set (clipCount := clip_count clipLimit (width / tilesX * (height / tilesY)))
    in *.
  assert (Htotal : imul tilesX tilesY = tilesX * tilesY).
  { destruct Hvalid. apply imul_id, is_int_between. nia. }
  assert (Htable : imul (tilesX * tilesY) NUM_BINS = tilesX * tilesY * 256).
  { destruct Hvalid. apply imul_id, is_int_between. unfold NUM_BINS. nia. }
  assert (Hsize : imul width height = width * height).
  { destruct Hvalid. apply imul_id, is_int_between. nia. }
  assert (Hvec : ∀ n, 0 ≤ n →
            vector n = Some (replicate (Z.to_nat n) 0)).
  { intros n Hn. unfold vector. by rewrite decide_True. }
  destruct (build_cdfs_spec data width height tilesX tilesY clipCount
              Hvalid Hclip (replicate (Z.to_nat (tilesX * tilesY * 256)) 0))
    as (cdfs & Hstep1 & Hlc & Hfilled).
  { rewrite length_replicate. destruct Hvalid. nia. }
  rewrite length_replicate in Hlc.
  assert (Hcdfs : Z.of_nat (length cdfs) = tilesX * tilesY * 256)
    by (destruct Hvalid; nia).
  destruct (reconstruct_spec data width height tilesX tilesY cdfs Hvalid
              Hcdfs HtwoX HtwoY (replicate (Z.to_nat (width * height)) 0))
    as (out & Hstep2 & Hlo & Hpixels).
  { rewrite length_replicate. destruct Hvalid. nia. }
  rewrite length_replicate in Hlo.
  exists cdfs, out.
  split; [exact Hcdfs|]. split; [exact Hfilled|].
  split; [| split; [destruct Hvalid; lia | exact Hpixels]].
  unfold applyCLAHE.
  rewrite (idiv_width data width height tilesX tilesY Hvalid).
  rewrite (idiv_height data width height tilesX tilesY Hvalid).
  rewrite (imul_tile_area data width height tilesX tilesY Hvalid).
  fold clipCount.
  rewrite !decide_False by (destruct Hvalid; lia).
  rewrite Htotal, Htable, Hsize.
  rewrite !Hvec by (destruct Hvalid; nia).
  rewrite bind_Some, Hstep1, bind_Some, bind_Some, Hstep2, bind_Some.
  rewrite memcpy_whole by (destruct Hvalid; lia).
  reflexivity.
Qed.

(** ** Uniform images *)

Lemma half_value_image_valid : valid_input [100; 100; 100; 100] 2 2 2 2.
Proof.
  constructor; try (vm_compute; (reflexivity || discriminate)).
  apply (bool_decide_unpack _). vm_compute. reflexivity.
Qed.

(** C3, counterexample. A 2x2 image of intensity 100 with 2x2 tiles of
    one pixel is valid and uniform, and the call turns every pixel into
    255: the histogram of a tile is a single unit in bin 100, so the
    cumulative table is 0 below 100 and 255 from 100 on. *)
Lemma uniform_image_not_preserved :
  valid_input [100; 100; 100; 100] 2 2 2 2 ∧
  (∀ b, b ∈ [100; 100; 100; 100] → b = 100) ∧
  applyCLAHE (Some [100; 100; 100; 100]) 2 2 2 2 2 =
    Some (Effect (Some [255; 255; 255; 255]) [1024; 4]) ∧
  [255; 255; 255; 255] ≠ [100; 100; 100; 100].
Proof.
  split; [exact half_value_image_valid|].
  split.
  { intros b Hb. rewrite !elem_of_cons in Hb.
    destruct Hb as [-> | [-> | [-> | [-> | Hb]]]]; try reflexivity.
    by apply not_elem_of_nil in Hb. }
  split; [vm_compute; reflexivity | discriminate].
Qed.

(** The tiles of a uniform image all have the same lookup table. *)
Lemma uniform_tile_table (data : list Z)
    (width height tilesX tilesY clipCount v ty tx : Z) :
  valid_input data width height tilesX tilesY →
  (∀ b, b ∈ data → b = v) →
  0 ≤ ty < tilesY → 0 ≤ tx < tilesX →
  is_u8 v ∧
  tile_table data width (width / tilesX) (height / tilesY)
    (width / tilesX * (height / tilesY)) clipCount ty tx =
  (hist ← clip_and_redistribute clipCount
            (uniform_histogram v (width / tilesX * (height / tilesY)));
   tile_cdf hist (width / tilesX * (height / tilesY))).
Proof.
  intros Hvalid Hall Hty Htx.
  pose proof (tiles_cover_width _ _ _ _ _ Hvalid) as HcW.
  pose proof (tiles_cover_height _ _ _ _ _ Hvalid) as HcH.
  pose proof (tile_area_bounds _ _ _ _ _ Hvalid) as [Hpos Harea].
  destruct Hvalid.
  destruct (tile_start_bounds tilesX (width / tilesX) width tx)
    as [Hx0 Hx1]; try done.
  destruct (tile_start_bounds tilesY (height / tilesY) height ty)
    as [Hy0 Hy1]; try done.
  assert (Hread : ∀ i, 0 ≤ i < width * height → vget data i = Some v).
  { intros i Hi. destruct (vget_in_bounds data i) as (p & -> & Hp); [lia|].
    f_equal. apply Hall. by eapply list_elem_of_lookup_2. }
  assert (Hv : is_u8 v).
  { pose proof (Hread 0 ltac:(nia)) as H0.
    rewrite vget_lookup in H0 by lia.
    rewrite Forall_forall in valid_bytes0. apply valid_bytes0.
    by eapply list_elem_of_lookup_2. }
  split; [exact Hv|].
  unfold tile_table.
  rewrite (imul_id tx), (imul_id ty) by (apply is_int_between; nia).
  rewrite (build_histogram_uniform data width _ _ _ _ v); try done; try lia.
  - intros x y Hx Hy.
    destruct (tile_offset_bounds (width * height) width
                (tx * (width / tilesX)) (ty * (height / tilesY))
                (width / tilesX) (height / tilesY) x y)
      as (Hi1 & Hi2 & Hidx); try done; try lia.
    { rewrite (Z.mul_comm width). apply Z.mul_le_mono_nonneg_r; lia. }
    rewrite imul_id, iadd_id by done. by apply Hread.
  - apply is_int_between. unfold INT_MAX in *. nia.
  - apply is_int_between. unfold INT_MAX in *. nia.
Qed.

(** ** Tiles of more than 8421504 pixels *)

Lemma black_image_valid (width height tilesX tilesY : Z) :
  0 < width → 0 < height → 0 < tilesX ≤ width → 0 < tilesY ≤ height →
  width * height ≤ INT_MAX → tilesX * tilesY * 256 ≤ INT_MAX →
  valid_input (black_image width height) width height tilesX tilesY.
Proof.
  intros Hw Hh HtX HtY Hsize Htable. unfold black_image.
  constructor; try lia.
  - apply Z.div_str_pos. lia.
  - apply Z.div_str_pos. lia.
  - apply Forall_replicate. unfold is_u8. lia.
  - rewrite length_replicate. nia.
Qed.

Lemma black_image_uniform (width height b : Z) :
  b ∈ black_image width height → b = 0.
Proof. unfold black_image. by intros [-> _]%elem_of_replicate. Qed.

(** C6. The table of a tile is not monotone for every valid input: for
    an all-black 5806x5806 image with 2x2 tiles and clip limit 2.0 (tiles
    of 2903x2903 = 8427409 pixels) the entry of the table of tile (0, 0)
    for intensity 254 is 254 and its entry for intensity 255 is 2,
    because [cumSum * 255] exceeds the range of [int] at line 81. *)
Theorem large_tile_cdf_not_monotone :
  let data := black_image 5806 5806 in
  let tileW := idiv 5806 2 in
  let tileH := idiv 5806 2 in
  let numPixelsPerTile := imul tileW tileH in
  let clipCount := clip_count 2 numPixelsPerTile in
  valid_input data 5806 5806 2 2 ∧
  numPixelsPerTile = 8427409 ∧
  ∃ table,
    tile_table data 5806 tileW tileH numPixelsPerTile clipCount 0 0
      = Some table ∧
    table !! 254%nat = Some 254 ∧
    table !! 255%nat = Some 2 ∧
    ¬ monotone table.
Proof.
  cbn zeta.
  assert (Hvalid : valid_input (black_image 5806 5806) 5806 5806 2 2).
  { apply black_image_valid; unfold INT_MAX; lia. }
  split; [exact Hvalid|].
  split; [vm_compute; reflexivity|].
  destruct (uniform_tile_table (black_image 5806 5806) 5806 5806 2 2
              (clip_count 2 8427409) 0 0 0 Hvalid
              (black_image_uniform 5806 5806) ltac:(lia) ltac:(lia))
    as [_ Htab].
  change (idiv 5806 2) with 2903.
  change (imul 2903 2903) with 8427409.
  change (5806 / 2) with 2903 in Htab.
  change (2903 * 2903) with 8427409 in Htab.
  rewrite Htab. clear Htab Hvalid.
  eexists. split; [vm_compute; reflexivity|].
  split; [vm_compute; reflexivity|].
  split; [vm_compute; reflexivity|].
  intros Hmono.
  specialize (Hmono 254%nat 255%nat 254 2 ltac:(lia)
                ltac:(vm_compute; reflexivity) ltac:(vm_compute; reflexivity)).
  lia.
Qed.

(** C7. Line 81 in wrapping 32-bit arithmetic does not agree with the
    clamped exact quotient for every reachable cumulative sum: in tile
    (1, 1) of an all-black 5806x5806 image with 2x2 tiles and clip limit
    2.0 the cumulative sum at bin 255 is the pixel count
    [n = 8427409]; [n * 255] wraps to a negative number, the quotient is
    -254, [std::min] keeps it, and the conversion to a byte stores 2
    where the exact value is 255. *)
Theorem large_tile_cdf_entry_wraps :
  let data := black_image 5806 5806 in
  let n := 8427409 in
  let clipCount := clip_count 2 n in
  imul (idiv 5806 2) (idiv 5806 2) = n ∧
  imul n 255 = n * 255 - 2 ^ 32 ∧
  idiv (imul n 255) n = -254 ∧
  cdf_entry n n = 2 ∧
  clamp_exact (n * 255 / n) = 255 ∧
  ∃ hist table,
    build_histogram data 5806 (imul 1 2903) (imul 1 2903) 2903 2903
      = Some (uniform_histogram 0 n) ∧
    clip_and_redistribute clipCount (uniform_histogram 0 n) = Some hist ∧
    sum_bins hist = n ∧
    tile_table data 5806 2903 2903 n clipCount 1 1 = Some table ∧
    table !! 255%nat = Some (cdf_entry (sum_bins hist) n).
Proof.
  cbn zeta.
  do 5 (split; [vm_compute; reflexivity|]).
  assert (Hvalid : valid_input (black_image 5806 5806) 5806 5806 2 2).
  { apply black_image_valid; unfold INT_MAX; lia. }
  destruct (uniform_tile_table (black_image 5806 5806) 5806 5806 2 2
              (clip_count 2 8427409) 0 1 1 Hvalid
              (black_image_uniform 5806 5806) ltac:(lia) ltac:(lia))
    as [_ Htab].
  change (5806 / 2) with 2903 in Htab.
  change (2903 * 2903) with 8427409 in Htab.
  assert (Hhist :
    build_histogram (black_image 5806 5806) 5806 (imul 1 2903) (imul 1 2903)
      2903 2903 = Some (uniform_histogram 0 8427409)).
  { change (imul 1 2903) with 2903.
    rewrite (build_histogram_uniform _ 5806 2903 2903 2903 2903 0);
      [reflexivity | | |
       lia | lia | lia | lia | .. ];
      try (unfold is_int, is_u8, INT_MIN, INT_MAX; lia).
    intros x y Hx Hy.
    destruct (tile_offset_bounds (5806 * 5806) 5806 2903 2903 2903 2903 x y)
      as (Hi1 & Hi2 & Hidx); try lia; try (unfold INT_MAX; lia).
    rewrite imul_id, iadd_id by done.
    destruct (vget_in_bounds (black_image 5806 5806) (y * 5806 + x))
      as (p & -> & Hp).
    { unfold black_image. rewrite length_replicate. lia. }
    f_equal. apply (black_image_uniform 5806 5806).
    by eapply list_elem_of_lookup_2. }
  rewrite Htab, Hhist. clear Htab Hhist Hvalid.
  eexists _, _. split; [reflexivity|].
  split; [vm_compute; reflexivity|].
  split; [vm_compute; reflexivity|].
  split; vm_compute; reflexivity.
Qed.

(** C3, amended. On a valid input with at least two tiles along both
    axes whose pixels all carry the same intensity [v], all tiles have
    the lookup table of the histogram with the whole count in bin [v],
    and every output pixel is the blend of four copies of the entry [c]
    of that table at [v]; the output is computed from [c], not from
    [v]. *)
Theorem uniform_image_maps_through_cdf (data : list Z)
    (width height tilesX tilesY : Z) (clipLimit : float) (v : Z) :
  valid_input data width height tilesX tilesY →
  2 ≤ tilesX → 2 ≤ tilesY →
  (∀ b, b ∈ data → b = v) →
  let tileW := width / tilesX in
  let tileH := height / tilesY in
  let numPixelsPerTile := tileW * tileH in
  let clipCount := clip_count clipLimit numPixelsPerTile in
  ∃ hist table c out,
    clip_and_redistribute clipCount (uniform_histogram v numPixelsPerTile)
      = Some hist ∧
    tile_cdf hist numPixelsPerTile = Some table ∧
    table !! Z.to_nat v = Some c ∧
    applyCLAHE (Some data) width height tilesX tilesY clipLimit =
      Some (Effect (Some out) [tilesX * tilesY * 256; width * height]) ∧
    length out = length data ∧
    ∀ x y, 0 ≤ x < width → 0 ≤ y < height →
      out !! Z.to_nat (y * width + x) =
        Some (blend c c c c
                (weight (tile_coord x tileW)
                        (first_tile (tile_coord x tileW) tilesX))
                (weight (tile_coord y tileH)
                        (first_tile (tile_coord y tileH) tilesY))).
Proof.
  intros Hvalid HtwoX HtwoY Hall tileW tileH numPixelsPerTile clipCount.
  destruct (applyCLAHE_spec data width height tilesX tilesY clipLimit
              Hvalid HtwoX HtwoY) as (cdfs & out & Hcdfs & Hfilled & Hrun & Hlo & Hpix).
  fold tileW tileH numPixelsPerTile clipCount in Hfilled, Hpix.
  pose proof (valid_tilesX _ _ _ _ _ Hvalid) as HtX.
  pose proof (valid_tilesY _ _ _ _ _ Hvalid) as HtY.
  destruct (uniform_tile_table data width height tilesX tilesY clipCount v
              0 0 Hvalid Hall ltac:(lia) ltac:(lia)) as [Hv Htab0].
  fold tileW tileH numPixelsPerTile in Htab0.
  destruct (Hfilled 0 0 ltac:(lia) ltac:(lia)) as (table & Htable & Hlt & _).
  rewrite Htab0 in Htable.
  destruct (clip_and_redistribute clipCount
              (uniform_histogram v numPixelsPerTile)) as [hist|] eqn:Hhist;
    [|discriminate].
  rewrite bind_Some in Htable.
  destruct (lookup_lt_is_Some_2 table (Z.to_nat v)) as [c Hc];
    [unfold is_u8 in Hv; lia|].
  assert (Hentry : ∀ ty tx, 0 ≤ ty < tilesY → 0 ≤ tx < tilesX →
            cdfs !! (tile_offset tilesX ty tx + Z.to_nat v)%nat = Some c).
  { intros ty tx Hty Htx.
    destruct (Hfilled ty tx Hty Htx) as (table' & Htable' & _ & Hent).
    destruct (uniform_tile_table data width height tilesX tilesY clipCount v
                ty tx Hvalid Hall Hty Htx) as [_ Htab].
    fold tileW tileH numPixelsPerTile in Htab.
    rewrite Htab, Hhist, bind_Some, Htable in Htable'.
    injection Htable' as <-.
    rewrite Hent by (unfold is_u8 in Hv; lia). exact Hc. }
  exists hist, table, c, out.
  split; [reflexivity|]. split; [exact Htable|]. split; [exact Hc|].
  split; [exact Hrun|]. split; [exact Hlo|].
  intros x y Hx Hy.
  destruct (Hpix x y Hx Hy) as (pixel & w & Hd & Hint & Ho).
  assert (pixel = v) as -> by (apply Hall; by eapply list_elem_of_lookup_2).
  destruct (interpolate_defined data width height tilesX tilesY cdfs Hvalid
              Hcdfs HtwoX HtwoY x y v Hv)
    as (Hx0 & Hy0 & v00 & v01 & v10 & v11 & H00 & H01 & H10 & H11 & Hblend).
  fold tileW tileH in Hx0, Hy0, H00, H01, H10, H11, Hblend.
  rewrite Hentry in H00, H01, H10, H11 by lia.
  injection H00 as <-. injection H01 as <-.
  injection H10 as <-. injection H11 as <-.
  rewrite Ho. rewrite Hblend in Hint. by injection Hint as <-.
Qed.

Lemma uniform_image_maps_through_cdf_witness :
  ∃ c out,
    uniform_histogram 100 1 !! 100%nat = Some 1 ∧
    c = 255 ∧
    applyCLAHE (Some [100; 100; 100; 100]) 2 2 2 2 2 =
      Some (Effect (Some out) [2 * 2 * 256; 2 * 2]) ∧
    out !! Z.to_nat (1 * 2 + 1) =
      Some (blend c c c c
              (weight (tile_coord 1 (2 / 2))
                      (first_tile (tile_coord 1 (2 / 2)) 2))
              (weight (tile_coord 1 (2 / 2))
                      (first_tile (tile_coord 1 (2 / 2)) 2))).
Proof.
  destruct (uniform_image_maps_through_cdf [100; 100; 100; 100] 2 2 2 2 2 100
              half_value_image_valid ltac:(lia) ltac:(lia))
    as (hist & table & c & out & Hhist & Htable & Hc & Hrun & Hlo & Hpix).
  { intros b Hb. rewrite !elem_of_cons in Hb.
    destruct Hb as [-> | [-> | [-> | [-> | Hb]]]]; try reflexivity.
    by apply not_elem_of_nil in Hb. }
  exists c, out.
  split; [vm_compute; reflexivity|].
  split.
  { vm_compute in Hhist. injection Hhist as <-.
    vm_compute in Htable. injection Htable as <-.
    vm_compute in Hc. by injection Hc as <-. }
  split; [exact Hrun|].
  apply (Hpix 1 1); lia.
Defined.

(** ** A single tile along an axis *)

Lemma one_pixel_image_valid : valid_input [0] 1 1 1 1.
Proof.
  constructor; try (vm_compute; (reflexivity || discriminate)).
  apply (bool_decide_unpack _). vm_compute. reflexivity.
Qed.

(** C2. The fetches of the reconstruction do not stay inside the table
    for every valid input: on a 1x1 image with tilesX = tilesY = 1 the
    table has 256 entries, the clamp of lines 103-104 yields tile 0 on
    both axes, and the fetches for the neighbours (0,1), (1,0) and (1,1)
    use the flat indices 256, 256 and 512, which lie outside the table;
    the run is undefined. *)
Theorem single_tile_fetch_out_of_bounds :
  let tilesX := 1 in
  let tilesY := 1 in
  let tileW := idiv 1 tilesX in
  let tileH := idiv 1 tilesY in
  let tx0 := first_tile (tile_coord 0 tileW) tilesX in
  let ty0 := first_tile (tile_coord 0 tileH) tilesY in
  valid_input [0] 1 1 tilesX tilesY ∧
  imul (imul tilesX tilesY) NUM_BINS = 256 ∧
  tx0 = 0 ∧ ty0 = 0 ∧
  cdf_index tilesX ty0 tx0 0 = 0 ∧
  cdf_index tilesX ty0 (iadd tx0 1) 0 = 256 ∧
  cdf_index tilesX (iadd ty0 1) tx0 0 = 256 ∧
  cdf_index tilesX (iadd ty0 1) (iadd tx0 1) 0 = 512 ∧
  ∃ cdfs,
    build_cdfs [0] 1 tilesX tilesY tileW tileH (imul tileW tileH)
      (clip_count 2 (imul tileW tileH)) (replicate 256 0) = Some cdfs ∧
    length cdfs = 256%nat ∧
    vget cdfs 256 = None ∧
    interpolate cdfs tilesX tilesY tileW tileH 0 0 0 = None ∧
    applyCLAHE (Some [0]) 1 1 tilesX tilesY 2 = None.
Proof.
  cbn zeta. split; [exact one_pixel_image_valid|].
  do 7 (split; [vm_compute; reflexivity|]).
  eexists. split; [vm_compute; reflexivity|].
  do 3 (split; [vm_compute; reflexivity|]).
  vm_compute. reflexivity.
Qed.

Lemma column_of_tiles_image_valid : valid_input [10; 20; 30; 40] 2 2 1 2.
Proof.
  constructor; try (vm_compute; (reflexivity || discriminate)).
  apply (bool_decide_unpack _). vm_compute. reflexivity.
Qed.

(** C4. The stored byte is not the blend of four entries of neighbour
    tiles for every valid input: on a 2x2 image with tilesX = 1 and
    tilesY = 2 the table has 512 entries; for the pixel at (0, 0), of
    intensity 10, the entry fetched for the neighbour (0,1) is the entry
    of tile (1,0), and the fetch for the neighbour (1,1) uses the flat
    index 522, outside the table; no byte is stored and the run is
    undefined. *)
Theorem single_tile_column_has_no_neighbours :
  let data := [10; 20; 30; 40] in
  let tilesX := 1 in
  let tilesY := 2 in
  let tileW := idiv 2 tilesX in
  let tileH := idiv 2 tilesY in
  let tx0 := first_tile (tile_coord 0 tileW) tilesX in
  let ty0 := first_tile (tile_coord 0 tileH) tilesY in
  valid_input data 2 2 tilesX tilesY ∧
  imul (imul tilesX tilesY) NUM_BINS = 512 ∧
  tx0 = 0 ∧ ty0 = 0 ∧
  cdf_index tilesX ty0 (iadd tx0 1) 10 = cdf_index tilesX 1 0 10 ∧
  cdf_index tilesX (iadd ty0 1) (iadd tx0 1) 10 = 522 ∧
  ∃ cdfs,
    build_cdfs data 2 tilesX tilesY tileW tileH (imul tileW tileH)
      (clip_count 2 (imul tileW tileH)) (replicate 512 0) = Some cdfs ∧
    length cdfs = 512%nat ∧
    vget cdfs 522 = None ∧
    interpolate cdfs tilesX tilesY tileW tileH 0 0 10 = None ∧
    applyCLAHE (Some data) 2 2 tilesX tilesY 2 = None.
Proof.
  cbn zeta. split; [exact column_of_tiles_image_valid|].
  do 5 (split; [vm_compute; reflexivity|]).
  eexists. split; [vm_compute; reflexivity|].
  do 3 (split; [vm_compute; reflexivity|]).
  vm_compute. reflexivity.
Qed.

Lemma row_of_tiles_image_valid : valid_input [10; 20; 30] 3 1 2 1.
Proof.
  constructor; try (vm_compute; (reflexivity || discriminate)).
  apply (bool_decide_unpack _). vm_compute. reflexivity.
Qed.

(** C8. A pixel outside the tiled area does not receive a defined value
    for every valid input: on a 3x1 image with tilesX = 2 and tilesY = 1
    the tiles are 1x1, the pixel of column 2 lies outside the tiled
    area, the table has 512 entries, and the fetch for its neighbour
    tile in row 1 uses the flat index 542, outside the table; the run is
    undefined. *)
Theorem single_tile_row_leaves_pixels_undefined :
  let data := [10; 20; 30] in
  let tilesX := 2 in
  let tilesY := 1 in
  let tileW := idiv 3 tilesX in
  let tileH := idiv 1 tilesY in
  let tx0 := first_tile (tile_coord 2 tileW) tilesX in
  let ty0 := first_tile (tile_coord 0 tileH) tilesY in
  valid_input data 3 1 tilesX tilesY ∧
  3 `mod` tilesX ≠ 0 ∧ tilesX * tileW ≤ 2 ∧
  imul (imul tilesX tilesY) NUM_BINS = 512 ∧
  tx0 = 0 ∧ ty0 = 0 ∧
  cdf_index tilesX (iadd ty0 1) tx0 30 = 542 ∧
  ∃ cdfs,
    build_cdfs data 3 tilesX tilesY tileW tileH (imul tileW tileH)
      (clip_count 2 (imul tileW tileH)) (replicate 512 0) = Some cdfs ∧
    length cdfs = 512%nat ∧
    vget cdfs 542 = None ∧
    interpolate cdfs tilesX tilesY tileW tileH 2 0 30 = None ∧
    applyCLAHE (Some data) 3 1 tilesX tilesY 2 = None.
Proof.
  cbn zeta. split; [exact row_of_tiles_image_valid|].
  split; [vm_compute; discriminate|].
  split; [vm_compute; discriminate|].
  do 4 (split; [vm_compute; reflexivity|]).
  eexists. split; [vm_compute; reflexivity|].
  do 3 (split; [vm_compute; reflexivity|]).
  vm_compute. reflexivity.
Qed.

Lemma for_loop_first_fails {A : Type} (lo hi : Z) (body : Z → A → option A)
    (s : A) :
  lo < hi → body lo s = None → for_loop lo hi body s = None.
Proof.
  intros Hlt Hfail. unfold for_loop.
  destruct (Z.to_nat (hi - lo)) as [|n] eqn:Hn; [lia|].
  cbn [iterate]. by rewrite Hfail.
Qed.

Lemma wrap32_add_l (a b : Z) : wrap32 (wrap32 a + b) = wrap32 (a + b).
Proof.
  unfold wrap32.
  replace ((a + 2 ^ 31) `mod` 2 ^ 32 - 2 ^ 31 + b + 2 ^ 31)
    with ((a + 2 ^ 31) `mod` 2 ^ 32 + b) by lia.
  rewrite Z.add_mod_idemp_l by lia.
  do 2 f_equal. lia.
Qed.

Lemma vget_wrap32_above (v : list Z) (z : Z) :
  Z.of_nat (length v) ≤ z < 2 ^ 32 → vget v (wrap32 z) = None.
Proof.
  intros Hz. destruct (decide (z ≤ INT_MAX)) as [Hfit | Hwrap].
  - rewrite wrap32_id by int_range.
    apply vget_None_above. lia.
  - unfold vget. rewrite decide_False; [done|].
    unfold wrap32, INT_MAX in *.
    replace (z + 2 ^ 31) with (z - 2 ^ 31 + 1 * 2 ^ 32) by lia.
    rewrite Z.mod_add, Z.mod_small by lia. lia.
Qed.

(** With a single row of tiles the fetch for tile row 1 at the first
    pixel lies outside the table, whatever the image. *)
Lemma single_tile_row_fetch (cdfs : list Z) (tilesX tx0 pixel : Z) :
  0 < tilesX → tilesX * 256 ≤ INT_MAX →
  Z.of_nat (length cdfs) = tilesX * 256 →
  0 ≤ tx0 < tilesX → is_u8 pixel →
  vget cdfs (cdf_index tilesX 1 tx0 pixel) = None.
Proof.
  intros HtX Hfit Hlen Htx0 Hp. unfold is_u8, INT_MAX in *.
  unfold cdf_index, tile_base, NUM_BINS.
  rewrite (imul_id 1), (iadd_id (1 * tilesX))
    by int_range.
  unfold iadd, imul. rewrite wrap32_add_l.
  apply vget_wrap32_above. nia.
Qed.

(** Every valid call with a single row of tiles is undefined: the
    defect of C2 does not depend on the image. *)
Lemma single_tile_row_is_undefined (data : list Z)
    (width height tilesX : Z) (clipLimit : float) :
  valid_input data width height tilesX 1 →
  applyCLAHE (Some data) width height tilesX 1 clipLimit = None.
Proof.
  intros Hvalid.
  pose proof (clip_count_bounds clipLimit (width / tilesX * (height / 1)))
    as Hclip.
  set (clipCount := clip_count clipLimit (width / tilesX * (height / 1))) in *.
  assert (Htotal : imul tilesX 1 = tilesX * 1).
  { destruct Hvalid. apply imul_id, is_int_between. nia. }
  assert (Htable : imul (tilesX * 1) NUM_BINS = tilesX * 1 * 256).
  { destruct Hvalid. apply imul_id, is_int_between. unfold NUM_BINS. nia. }
  assert (Hsize : imul width height = width * height).
  { destruct Hvalid. apply imul_id, is_int_between. nia. }
  assert (Hvec : ∀ n, 0 ≤ n → vector n = Some (replicate (Z.to_nat n) 0)).
  { intros n Hn. unfold vector. by rewrite decide_True. }
  destruct (build_cdfs_spec data width height tilesX 1 clipCount
              Hvalid Hclip (replicate (Z.to_nat (tilesX * 1 * 256)) 0))
    as (cdfs & Hstep1 & Hlc & _).
  { rewrite length_replicate. destruct Hvalid. nia. }
  rewrite length_replicate in Hlc.
  unfold applyCLAHE.
  rewrite (idiv_width data width height tilesX 1 Hvalid).
  rewrite (idiv_height data width height tilesX 1 Hvalid).
  rewrite (imul_tile_area data width height tilesX 1 Hvalid).
  fold clipCount.
  rewrite !decide_False by (destruct Hvalid; lia).
  rewrite Htotal, Htable, Hsize.
  rewrite !Hvec by (destruct Hvalid; nia).
  rewrite bind_Some, Hstep1, bind_Some, bind_Some.
  assert (Hrec : reconstruct data cdfs width height tilesX 1
                   (width / tilesX) (height / 1)
                   (replicate (Z.to_nat (width * height)) 0) = None);
    [|by rewrite Hrec].
  unfold reconstruct.
  apply for_loop_first_fails; [destruct Hvalid; lia|].
  apply for_loop_first_fails; [destruct Hvalid; lia|].
  change (iadd (imul 0 width) 0) with 0.
  destruct (vget_in_bounds data 0) as (pixel & -> & Hpix);
    [destruct Hvalid; nia|].
  assert (Hu8 : is_u8 pixel).
  { pose proof (valid_bytes _ _ _ _ _ Hvalid) as Hb.
    rewrite Forall_forall in Hb. apply Hb. by eapply list_elem_of_lookup_2. }
  rewrite bind_Some. unfold interpolate.
  rewrite first_tile_single. change (iadd 0 1) with 1.
  assert (Htx0 : 0 ≤ first_tile (tile_coord 0 (width / tilesX)) tilesX
                 < tilesX).
  { unfold first_tile. destruct Hvalid.
    rewrite isub_id by (unfold is_int, INT_MIN, INT_MAX in *; nia). lia. }
  set (tx0 := first_tile (tile_coord 0 (width / tilesX)) tilesX) in *.
  rewrite (single_tile_row_fetch cdfs tilesX tx0 pixel);
    [| destruct Hvalid; lia | destruct Hvalid; lia | destruct Hvalid; nia
     | exact Htx0 | exact Hu8].
  destruct (vget cdfs (cdf_index tilesX 0 tx0 pixel)) as [v00|];
    [|reflexivity].
  rewrite bind_Some.
  destruct (vget cdfs (cdf_index tilesX 0 (iadd tx0 1) pixel)) as [v01|];
    reflexivity.
Qed.

(** ** The reconstruction on a grid of at least 2x2 tiles *)

(** On a valid input with at least two tiles along both axes the byte
    stored at [(x, y)] is the clamped, truncated bilinear blend of the
    entries, at the original intensity of the pixel, of the lookup
    tables of the four tiles [(ty0, tx0)], [(ty0, tx0 + 1)],
    [(ty0 + 1, tx0)], [(ty0 + 1, tx0 + 1)]; the tables are those of the
    original buffer, so no output depends on a pixel rewritten by the
    same call. *)
Lemma reconstruction_formula (data : list Z)
    (width height tilesX tilesY : Z) (clipLimit : float) :
  valid_input data width height tilesX tilesY →
  2 ≤ tilesX → 2 ≤ tilesY →
  let tileW := width / tilesX in
  let tileH := height / tilesY in
  let numPixelsPerTile := tileW * tileH in
  let clipCount := clip_count clipLimit numPixelsPerTile in
  let table := tile_table data width tileW tileH numPixelsPerTile clipCount in
  ∃ out,
    applyCLAHE (Some data) width height tilesX tilesY clipLimit =
      Some (Effect (Some out) [tilesX * tilesY * 256; width * height]) ∧
    length out = length data ∧
    ∀ x y, 0 ≤ x < width → 0 ≤ y < height →
      let fx := tile_coord x tileW in
      let fy := tile_coord y tileH in
      let tx0 := first_tile fx tilesX in
      let ty0 := first_tile fy tilesY in
      let ax := dmax 0 (dmin 1 (fx - of_int tx0)) in
      let ay := dmax 0 (dmin 1 (fy - of_int ty0)) in
      0 ≤ tx0 ≤ tilesX - 2 ∧ 0 ≤ ty0 ≤ tilesY - 2 ∧
      ∃ pixel t00 t01 t10 t11 v00 v01 v10 v11,
        data !! Z.to_nat (y * width + x) = Some pixel ∧
        table ty0 tx0 = Some t00 ∧ t00 !! Z.to_nat pixel = Some v00 ∧
        table ty0 (tx0 + 1) = Some t01 ∧ t01 !! Z.to_nat pixel = Some v01 ∧
        table (ty0 + 1) tx0 = Some t10 ∧ t10 !! Z.to_nat pixel = Some v10 ∧
        table (ty0 + 1) (tx0 + 1) = Some t11 ∧
        t11 !! Z.to_nat pixel = Some v11 ∧
        let top := (of_int v00 * (1 - ax) + of_int v01 * ax)%float in
        let bottom := (of_int v10 * (1 - ax) + of_int v11 * ax)%float in
        let value := (top * (1 - ay) + bottom * ay)%float in
        out !! Z.to_nat (y * width + x) =
          Some (double_to_int (dmax 0 (dmin 255 value))) ∧
        0 ≤ double_to_int (dmax 0 (dmin 255 value)) ≤ 255.
Proof.
  intros Hvalid HtwoX HtwoY tileW tileH numPixelsPerTile clipCount table.
  destruct (applyCLAHE_spec data width height tilesX tilesY clipLimit
              Hvalid HtwoX HtwoY)
    as (cdfs & out & Hcdfs & Hfilled & Hrun & Hlo & Hpix).
  fold tileW tileH numPixelsPerTile clipCount in Hfilled, Hpix.
  exists out. split; [exact Hrun|]. split; [exact Hlo|].
  intros x y Hx Hy fx fy tx0 ty0 ax ay.
  destruct (Hpix x y Hx Hy) as (pixel & w & Hd & Hint & Ho).
  assert (Hu8 : is_u8 pixel).
  { pose proof (valid_bytes _ _ _ _ _ Hvalid) as Hb.
    rewrite Forall_forall in Hb. apply Hb. by eapply list_elem_of_lookup_2. }
  destruct (interpolate_defined data width height tilesX tilesY cdfs Hvalid
              Hcdfs HtwoX HtwoY x y pixel Hu8)
    as (Hx0 & Hy0 & v00 & v01 & v10 & v11 & H00 & H01 & H10 & H11 & Hblend).
  fold tileW tileH fx fy tx0 ty0 in Hx0, Hy0, H00, H01, H10, H11, Hblend.
  split; [exact Hx0|]. split; [exact Hy0|].
  assert (Hentry : ∀ ty tx v, 0 ≤ ty < tilesY → 0 ≤ tx < tilesX →
            cdfs !! (tile_offset tilesX ty tx + Z.to_nat pixel)%nat = Some v →
            ∃ t, table ty tx = Some t ∧ t !! Z.to_nat pixel = Some v).
  { intros ty tx v Hty Htx Hv.
    destruct (Hfilled ty tx Hty Htx) as (t & Ht & _ & Hent).
    exists t. split; [exact Ht|].
    rewrite <- Hent by (unfold is_u8 in Hu8; lia). exact Hv. }
  destruct (Hentry ty0 tx0 v00 ltac:(lia) ltac:(lia) H00)
    as (t00 & Ht00 & Hv00).
  destruct (Hentry ty0 (tx0 + 1) v01 ltac:(lia) ltac:(lia) H01)
    as (t01 & Ht01 & Hv01).
  destruct (Hentry (ty0 + 1) tx0 v10 ltac:(lia) ltac:(lia) H10)
    as (t10 & Ht10 & Hv10).
  destruct (Hentry (ty0 + 1) (tx0 + 1) v11 ltac:(lia) ltac:(lia) H11)
    as (t11 & Ht11 & Hv11).
  exists pixel, t00, t01, t10, t11, v00, v01, v10, v11.
  do 9 (split; [eassumption|]).
  cbn zeta.
  rewrite Hblend in Hint. injection Hint as <-.
  rewrite Ho. unfold blend, weight. fold fx fy tx0 ty0 ax ay.
  match goal with
  | |- context [double_to_u8 (dmax 0 (dmin 255 ?d))] =>
      destruct (clamp_to_byte d) as [Hrange ->]
  end.
  split; [reflexivity | exact Hrange].
Qed.

(** ** Pixels outside the tiled area *)

(** The histograms read the buffer only inside the tiled area
    [[0, tilesX * tileW) x [0, tilesY * tileH)]: two buffers that agree
    there have the same tables, whatever their other pixels. *)
Lemma uncovered_pixels_not_counted (data data' : list Z)
    (width height tilesX tilesY clipCount : Z) (cdfs : list Z) :
  valid_input data width height tilesX tilesY →
  let tileW := width / tilesX in
  let tileH := height / tilesY in
  (∀ x y, 0 ≤ x < tilesX * tileW → 0 ≤ y < tilesY * tileH →
     data' !! Z.to_nat (y * width + x) = data !! Z.to_nat (y * width + x)) →
  build_cdfs data' width tilesX tilesY tileW tileH (tileW * tileH)
    clipCount cdfs =
  build_cdfs data width tilesX tilesY tileW tileH (tileW * tileH)
    clipCount cdfs.
Proof.
  intros Hvalid tileW tileH Hagree. unfold build_cdfs.
  pose proof (tiles_cover_width _ _ _ _ _ Hvalid) as HcW.
  pose proof (tiles_cover_height _ _ _ _ _ Hvalid) as HcH.
  fold tileW tileH in HcW, HcH.
  destruct Hvalid. fold tileW tileH in valid_tileW0, valid_tileH0.
  apply for_loop_ext. intros ty cur Hty.
  apply for_loop_ext. intros tx cur' Htx. cbn zeta.
  destruct (tile_start_bounds tilesX tileW width tx) as [Hx0 Hx1]; try done.
  destruct (tile_start_bounds tilesY tileH height ty) as [Hy0 Hy1]; try done.
  rewrite (build_histogram_ext data' data); [reflexivity|].
  rewrite (imul_id tx), (imul_id ty) by (apply is_int_between; nia).
  rewrite !iadd_id by (apply is_int_between; nia).
  intros x y Hx Hy.
  destruct (tile_offset_bounds (width * height) width (tx * tileW)
              (ty * tileH) tileW tileH x y) as (Hi1 & Hi2 & Hidx);
    try done; try lia.
  { rewrite (Z.mul_comm width). apply Z.mul_le_mono_nonneg_r; lia. }
  rewrite imul_id, iadd_id by done.
  rewrite !vget_lookup by lia.
  apply Hagree; nia.
Qed.

(** On a valid input with at least two tiles along both axes a pixel
    outside the tiled area still receives the blend of the entries of a
    tile pair of the grid, a value of [[0, 255]]. *)
Lemma uncovered_pixel_interpolated (data : list Z)
    (width height tilesX tilesY : Z) (clipLimit : float) (x y : Z) :
  valid_input data width height tilesX tilesY →
  2 ≤ tilesX → 2 ≤ tilesY →
  0 ≤ x < width → 0 ≤ y < height →
  tilesX * (width / tilesX) ≤ x ∨ tilesY * (height / tilesY) ≤ y →
  let tileW := width / tilesX in
  let tileH := height / tilesY in
  let tx0 := first_tile (tile_coord x tileW) tilesX in
  let ty0 := first_tile (tile_coord y tileH) tilesY in
  0 ≤ tx0 ∧ tx0 + 1 < tilesX ∧ 0 ≤ ty0 ∧ ty0 + 1 < tilesY ∧
  ∃ (cdfs out : list Z) (pixel v00 v01 v10 v11 : Z),
    applyCLAHE (Some data) width height tilesX tilesY clipLimit =
      Some (Effect (Some out) [tilesX * tilesY * 256; width * height]) ∧
    (∀ ty tx, 0 ≤ ty < tilesY → 0 ≤ tx < tilesX →
       tile_filled data width tilesX tileW tileH (tileW * tileH)
         (clip_count clipLimit (tileW * tileH)) cdfs ty tx) ∧
    data !! Z.to_nat (y * width + x) = Some pixel ∧
    cdfs !! (tile_offset tilesX ty0 tx0 + Z.to_nat pixel)%nat = Some v00 ∧
    cdfs !! (tile_offset tilesX ty0 (tx0 + 1) + Z.to_nat pixel)%nat
      = Some v01 ∧
    cdfs !! (tile_offset tilesX (ty0 + 1) tx0 + Z.to_nat pixel)%nat
      = Some v10 ∧
    cdfs !! (tile_offset tilesX (ty0 + 1) (tx0 + 1) + Z.to_nat pixel)%nat
      = Some v11 ∧
    out !! Z.to_nat (y * width + x) =
      Some (blend v00 v01 v10 v11
              (weight (tile_coord x tileW) tx0)
              (weight (tile_coord y tileH) ty0)) ∧
    is_u8 (blend v00 v01 v10 v11
             (weight (tile_coord x tileW) tx0)
             (weight (tile_coord y tileH) ty0)).
Proof.
  intros Hvalid HtwoX HtwoY Hx Hy _ tileW tileH tx0 ty0.
  destruct (applyCLAHE_spec data width height tilesX tilesY clipLimit
              Hvalid HtwoX HtwoY)
    as (cdfs & out & Hcdfs & Hfilled & Hrun & _ & Hpix).
  fold tileW tileH in Hpix, Hfilled.
  destruct (Hpix x y Hx Hy) as (pixel & w & Hd & Hint & Ho).
  assert (Hu8 : is_u8 pixel).
  { pose proof (valid_bytes _ _ _ _ _ Hvalid) as Hb.
    rewrite Forall_forall in Hb. apply Hb. by eapply list_elem_of_lookup_2. }
  destruct (interpolate_defined data width height tilesX tilesY cdfs Hvalid
              Hcdfs HtwoX HtwoY x y pixel Hu8)
    as (Hx0 & Hy0 & v00 & v01 & v10 & v11 & H00 & H01 & H10 & H11 & Hblend).
  fold tileW tileH tx0 ty0 in Hx0, Hy0, H00, H01, H10, H11, Hblend.
  split_and!; [lia | lia | lia | lia |].
  exists cdfs, out, pixel, v00, v01, v10, v11.
  rewrite Hblend in Hint. injection Hint as <-.
  split_and!; try eassumption.
  apply blend_is_u8.
Qed.

(** ** Bin by bin: the redistribution *)

(** Lines 67-69, bin by bin. *)
Lemma add_increment_pointwise (increment : Z) (hist : list Z) :
  length hist = 256%nat →
  add_increment increment hist = Some ((λ h, iadd h increment) <$> hist).
Proof.
  intros Hlen. unfold add_increment.
  destruct (for_loop_invariant (λ i (cur : list Z),
      length cur = 256%nat ∧
      ∀ (j : nat) (h : Z), hist !! j = Some h →
        cur !! j = Some (if decide (Z.of_nat j < i) then iadd h increment
                         else h)) 0 NUM_BINS
    (λ i hist, h ← vget hist i; vset hist i (iadd h increment)) hist)
    as (hist' & Hrun & Hl & Hpt).
  - unfold NUM_BINS. lia.
  - split; [done|]. intros j h Hj. by rewrite decide_False by lia.
  - intros i cur Hi [Hl Hpt]. unfold NUM_BINS in Hi.
    destruct (vget_in_bounds hist i) as (h & _ & Hh); [lia|].
    pose proof (Hpt _ _ Hh) as Hcur. rewrite decide_False in Hcur by lia.
    rewrite vget_lookup, Hcur, bind_Some by lia.
    rewrite vset_in_bounds by lia.
    eexists. split; [reflexivity|]. split; [by rewrite length_insert|].
    intros j h' Hj.
    destruct (decide (j = Z.to_nat i)) as [-> | Hne].
    + rewrite list_lookup_insert_eq by lia.
      assert (h' = h) as -> by congruence.
      by rewrite decide_True by lia.
    + rewrite list_lookup_insert_ne by done. rewrite (Hpt _ _ Hj).
      f_equal. apply decide_ext. lia.
  - rewrite Hrun. f_equal. apply list_eq. intros j.
    rewrite list_lookup_fmap.
    destruct (hist !! j) as [h|] eqn:Hj; simpl.
    + rewrite (Hpt _ _ Hj). apply lookup_lt_Some in Hj.
      rewrite decide_True; [done|]. unfold NUM_BINS. lia.
    + apply lookup_ge_None. apply lookup_ge_None in Hj. lia.
Qed.

(** Lines 71-73, bin by bin: one unit for the bins of the remainder,
    nothing for the others. *)
Lemma distribute_remainder_pointwise (remainder : Z) (hist : list Z) :
  0 ≤ remainder < 256 →
  length hist = 256%nat →
  ∃ hist',
    distribute_remainder remainder hist = Some hist' ∧
    length hist' = 256%nat ∧
    ∀ (j : nat) (h : Z), hist !! j = Some h →
      hist' !! j =
        Some (if decide (Z.of_nat j ∈ remainder_bins remainder)
              then iadd h 1 else h).
Proof.
  intros Hr Hlen. unfold distribute_remainder, remainder_bins.
  apply (for_loop_invariant (λ n hist',
    length hist' = 256%nat ∧
    ∀ (j : nat) (h : Z), hist !! j = Some h →
      hist' !! j =
        Some (if decide (Z.of_nat j ∈ map (remainder_bin remainder) (seqZ 0 n))
              then iadd h 1 else h)) 0 remainder); [lia | |].
  - split; [done|]. intros j h Hj. rewrite decide_False; [done|].
    intros (k & Hk & _)%elem_of_remainder_bins_prefix. lia.
  - intros i cur Hi [Hcur Hinv].
    assert (Hr' : 0 < remainder < 256) by lia.
    pose proof (remainder_bin_bounds remainder i Hr' Hi) as Hb.
    destruct (vget_in_bounds hist (remainder_bin remainder i))
      as (h0 & _ & Hh0); [lia|].
    assert (Hfresh : Z.of_nat (Z.to_nat (remainder_bin remainder i))
                       ∉ map (remainder_bin remainder) (seqZ 0 i)).
    { rewrite Z2Nat.id by lia.
      intros (k & Hk & Heq)%elem_of_remainder_bins_prefix.
      apply remainder_bin_inj in Heq; lia. }
    pose proof (Hinv _ _ Hh0) as Hread. rewrite decide_False in Hread by done.
    rewrite vget_lookup, Hread, bind_Some by lia.
    rewrite vset_in_bounds by lia.
    eexists. split; [reflexivity|]. split; [by rewrite length_insert|].
    intros j h Hj.
    destruct (decide (j = Z.to_nat (remainder_bin remainder i)))
      as [-> | Hne].
    + rewrite list_lookup_insert_eq by lia.
      assert (h = h0) as -> by congruence.
      rewrite decide_True; [done|].
      apply elem_of_remainder_bins_prefix. exists i. split; lia.
    + rewrite list_lookup_insert_ne by done.
      rewrite (Hinv _ _ Hj). f_equal.
      apply decide_ext. rewrite !elem_of_remainder_bins_prefix.
      split; intros (k & Hk & Heq).
      * exists k. split; [lia | done].
      * exists k. split; [|done].
        assert (k ≠ i); [|lia]. intros ->. lia.
Qed.

Lemma remainder_bins_empty : remainder_bins 0 = [].
Proof. reflexivity. Qed.

Lemma interpolate_is_u8 (cdfs : list Z)
    (tilesX tilesY tileW tileH x y pixel v : Z) :
  interpolate cdfs tilesX tilesY tileW tileH x y pixel = Some v → is_u8 v.
Proof.
  unfold interpolate. cbv zeta. intros Hint.
  repeat match type of Hint with
  | (vget ?c ?i ≫= _) = Some _ =>
      destruct (vget c i) as [?|];
        [rewrite bind_Some in Hint | discriminate Hint]
  end.
  injection Hint as <-. apply blend_is_u8.
Qed.

(** ** Further properties of the whole call *)

(** X1. On a valid input with at least two tiles along both axes the
    call is defined, allocates exactly the table of
    [tilesX * tilesY * 256] bytes and the output buffer of
    [width * height] bytes, and leaves a buffer that is again a valid
    input of the same dimensions: the call can be repeated. *)
Theorem valid_call_returns_valid_image (data : list Z)
    (width height tilesX tilesY : Z) (clipLimit : float) :
  valid_input data width height tilesX tilesY →
  2 ≤ tilesX → 2 ≤ tilesY →
  ∃ out,
    applyCLAHE (Some data) width height tilesX tilesY clipLimit =
      Some (Effect (Some out) [tilesX * tilesY * 256; width * height]) ∧
    valid_input out width height tilesX tilesY.
Proof.
  intros Hvalid HtwoX HtwoY.
  destruct (applyCLAHE_spec data width height tilesX tilesY clipLimit
              Hvalid HtwoX HtwoY)
    as (cdfs & out & Hcdfs & _ & Hrun & Hlo & Hpix).
  exists out. split; [exact Hrun|].
  destruct Hvalid as [Hw Hh HtX HtY HtW HtH Hbytes Hlen Hsize Htable].
  constructor; try assumption; [|lia].
  apply Forall_lookup. intros i v Hi.
  pose proof (lookup_lt_Some _ _ _ Hi) as Hlt.
  pose proof (Z.div_mod (Z.of_nat i) width ltac:(lia)) as Hdm.
  pose proof (Z.mod_pos_bound (Z.of_nat i) width Hw) as Hmod.
  assert (Hdiv : 0 ≤ Z.of_nat i / width < height).
  { split; [apply Z.div_pos; lia|]. apply Z.div_lt_upper_bound; lia. }
  destruct (Hpix (Z.of_nat i `mod` width) (Z.of_nat i / width) Hmod Hdiv)
    as (pixel & w & _ & Hint & Ho).
  replace (Z.to_nat (Z.of_nat i / width * width + Z.of_nat i `mod` width))
    with i in Ho by lia.
  assert (v = w) as -> by congruence.
  by eapply interpolate_is_u8.
Qed.

Lemma valid_call_returns_valid_image_witness :
  ∃ out,
    applyCLAHE (Some [100; 100; 100; 100]) 2 2 2 2 2 =
      Some (Effect (Some out) [2 * 2 * 256; 2 * 2]) ∧
    valid_input out 2 2 2 2.
Proof.
  apply (valid_call_returns_valid_image [100; 100; 100; 100] 2 2 2 2 2
           half_value_image_valid); lia.
Defined.




(** X3. On a valid input with at least two tiles along both axes, for
    every pixel position and every byte intensity, the clamp of lines
    103-104 keeps the first tile of the pair inside [[0, tiles - 2]] and
    the four flat indices of lines 115-118 are computed without overflow
    and lie inside the table of [tilesX * tilesY * 256] entries. *)
Theorem neighbour_fetches_stay_in_table (data : list Z)
    (width height tilesX tilesY x y pixel : Z) :
  valid_input data width height tilesX tilesY →
  2 ≤ tilesX → 2 ≤ tilesY → is_u8 pixel →
  let tx0 := first_tile (tile_coord x (idiv width tilesX)) tilesX in
  let ty0 := first_tile (tile_coord y (idiv height tilesY)) tilesY in
  let tx1 := iadd tx0 1 in
  let ty1 := iadd ty0 1 in
  let size := imul (imul tilesX tilesY) NUM_BINS in
  size = tilesX * tilesY * 256 ∧
  0 ≤ tx0 ∧ tx1 = tx0 + 1 ∧ tx1 < tilesX ∧
  0 ≤ ty0 ∧ ty1 = ty0 + 1 ∧ ty1 < tilesY ∧
  cdf_index tilesX ty0 tx0 pixel = (ty0 * tilesX + tx0) * 256 + pixel ∧
  cdf_index tilesX ty0 tx1 pixel = (ty0 * tilesX + tx1) * 256 + pixel ∧
  cdf_index tilesX ty1 tx0 pixel = (ty1 * tilesX + tx0) * 256 + pixel ∧
  cdf_index tilesX ty1 tx1 pixel = (ty1 * tilesX + tx1) * 256 + pixel ∧
  0 ≤ cdf_index tilesX ty0 tx0 pixel < size ∧
  0 ≤ cdf_index tilesX ty0 tx1 pixel < size ∧
  0 ≤ cdf_index tilesX ty1 tx0 pixel < size ∧
  0 ≤ cdf_index tilesX ty1 tx1 pixel < size.
Proof.
  intros Hvalid HtwoX HtwoY Hp tx0 ty0 tx1 ty1 size.
  pose proof (tile_counts_are_int _ _ _ _ _ Hvalid) as [HiX HiY].
  pose proof (first_tile_bounds (tile_coord x (idiv width tilesX)) tilesX
                ltac:(lia)) as Hx0.
  pose proof (first_tile_bounds (tile_coord y (idiv height tilesY)) tilesY
                ltac:(lia)) as Hy0.
  fold tx0 in Hx0. fold ty0 in Hy0.
  assert (Hx1 : tx1 = tx0 + 1) by (apply iadd_id; int_range).
  assert (Hy1 : ty1 = ty0 + 1) by (apply iadd_id; int_range).
  assert (Hsize : size = tilesX * tilesY * 256).
  { unfold size, NUM_BINS. destruct Hvalid.
    rewrite (imul_id tilesX), imul_id by (apply is_int_between; nia). done. }
  destruct (cdf_index_exact _ _ _ _ _ Hvalid ty0 tx0 pixel) as [E00 B00];
    [lia | lia | done |].
  destruct (cdf_index_exact _ _ _ _ _ Hvalid ty0 tx1 pixel) as [E01 B01];
    [lia | lia | done |].
  destruct (cdf_index_exact _ _ _ _ _ Hvalid ty1 tx0 pixel) as [E10 B10];
    [lia | lia | done |].
  destruct (cdf_index_exact _ _ _ _ _ Hvalid ty1 tx1 pixel) as [E11 B11];
    [lia | lia | done |].
  rewrite E00, E01, E10, E11, Hsize.
  split_and!; try reflexivity; lia.
Qed.

Lemma neighbour_fetches_stay_in_table_witness :
  0 ≤ cdf_index 2 (iadd (first_tile (tile_coord 1 (idiv 2 2)) 2) 1)
        (iadd (first_tile (tile_coord 1 (idiv 2 2)) 2) 1) 100
    < imul (imul 2 2) NUM_BINS.
Proof.
  apply (neighbour_fetches_stay_in_table [100; 100; 100; 100] 2 2 2 2 1 1 100
           half_value_image_valid); unfold is_u8; lia.
Defined.

(** X4. Lines 124-125: for every double, not-a-number and the
    infinities included, the value clamped by [std::min] and [std::max]
    truncates to an integer of [[0, 255]], so the conversion to a byte
    loses nothing; every blend of four table entries is therefore a byte
    obtained without wrap-around. *)
Theorem final_clamp_yields_byte (d : float) (v00 v01 v10 v11 : Z)
    (cax cay : float) :
  0 ≤ double_to_int (dmax 0 (dmin 255 d)) ≤ 255 ∧
  double_to_u8 (dmax 0 (dmin 255 d)) = double_to_int (dmax 0 (dmin 255 d)) ∧
  0 ≤ blend v00 v01 v10 v11 cax cay ≤ 255.
Proof.
  destruct (clamp_to_byte d) as [Hrange Hcast].
  split; [exact Hrange|]. split; [exact Hcast|].
  unfold blend.
  match goal with
  | |- context [double_to_u8 (dmax 0 (dmin 255 ?e))] =>
      destruct (clamp_to_byte e) as [Hr ->]
  end.
  exact Hr.
Qed.

(** X5. The weight of lines 109-112 is never outside [[0, 1]] and never
    not-a-number, whatever the coordinate: it is 0, 1, or a double
    strictly between them. *)
Theorem weights_are_clamped (f : float) (t0 : Z) :
  weight f t0 = 0%float ∨ weight f t0 = 1%float ∨
  ((0 <? weight f t0)%float = true ∧ (weight f t0 <? 1)%float = true).
Proof.
  unfold weight, dmin.
  destruct (f - of_int t0 <? 1)%float eqn:Hhi.
  - unfold dmax. destruct (0 <? f - of_int t0)%float eqn:Hlo.
    + right. right. split; assumption.
    + left. reflexivity.
  - right. left. reflexivity.
Qed.

(** ** Further properties of the stages *)

(** X6. Lines 46-55: for a tile that lies inside the buffer, the
    histogram loop ends normally with 256 non-negative bins whose total
    is the number [tileW * tileH] of pixels of the tile. *)
Theorem histogram_counts_tile_pixels (data : list Z)
    (width startX startY tileW tileH : Z) :
  Forall is_u8 data →
  0 ≤ startX → 0 ≤ startY → 0 < tileW → 0 < tileH →
  startX + tileW ≤ width →
  (startY + tileH) * width ≤ Z.of_nat (length data) →
  Z.of_nat (length data) ≤ INT_MAX →
  ∃ hist,
    build_histogram data width startX startY tileW tileH = Some hist ∧
    length hist = 256%nat ∧ Forall (λ b, 0 ≤ b) hist ∧
    sum_bins hist = tileW * tileH.
Proof. apply build_histogram_spec. Qed.

Lemma half_image_bytes : Forall is_u8 half_image.
Proof. apply (bool_decide_unpack _). vm_compute. reflexivity. Qed.

Lemma histogram_counts_tile_pixels_witness :
  ∃ hist,
    build_histogram half_image 16 8 0 8 8 = Some hist ∧
    length hist = 256%nat ∧ Forall (λ b, 0 ≤ b) hist ∧
    sum_bins hist = 8 * 8.
Proof.
  apply (histogram_counts_tile_pixels half_image 16 8 0 8 8 half_image_bytes);
    try lia; vm_compute; discriminate.
Defined.

(** X7. Lines 58-64: the clip loop replaces every bin [h] by
    [min(clipCount, h)] and returns as excess exactly what it cut, so
    capped bins plus excess keep the total. *)
Theorem clip_caps_every_bin (clipCount : Z) (hist : list Z) :
  length hist = 256%nat →
  Forall (λ b, 0 ≤ b) hist →
  sum_bins hist ≤ INT_MAX →
  1 ≤ clipCount ≤ INT_MAX →
  ∃ excess,
    clip_histogram clipCount hist = Some (Z.min clipCount <$> hist, excess) ∧
    0 ≤ excess ∧
    excess = sum_bins hist - sum_bins (Z.min clipCount <$> hist).
Proof.
  intros Hlen Hpos Hsum Hclip.
  destruct (clip_histogram_spec clipCount hist Hlen Hpos Hsum Hclip)
    as (excess & Hrun & Hex & Htot).
  exists excess. split; [exact Hrun|]. split; [exact Hex | lia].
Qed.

Lemma uniform_histogram_nonneg (v n : Z) :
  0 ≤ n → Forall (λ b, 0 ≤ b) (uniform_histogram v n).
Proof.
  intros Hn. unfold uniform_histogram.
  apply Forall_insert; [|exact Hn]. by apply Forall_replicate.
Qed.

Lemma clip_caps_every_bin_witness :
  ∃ excess,
    clip_histogram 1 (uniform_histogram 7 64) =
      Some (Z.min 1 <$> uniform_histogram 7 64, excess) ∧
    0 ≤ excess ∧
    excess = sum_bins (uniform_histogram 7 64)
             - sum_bins (Z.min 1 <$> uniform_histogram 7 64).
Proof.
  apply (clip_caps_every_bin 1 (uniform_histogram 7 64)).
  - apply uniform_histogram_length.
  - apply uniform_histogram_nonneg. lia.
  - vm_compute. discriminate.
  - unfold INT_MAX. lia.
Defined.

Lemma fmap_min_id (clipCount : Z) (hist : list Z) :
  Forall (λ b, b ≤ clipCount) hist → Z.min clipCount <$> hist = hist.
Proof.
  induction 1 as [|b l Hb _ IH]; [done|].
  rewrite fmap_cons, IH. f_equal. lia.
Qed.

(** X8. Lines 57-73: a histogram none of whose bins exceeds the clip
    count is left as it is: the excess is 0, the increment is 0 and the
    loop of the remainder does not run. *)
Theorem histogram_within_limit_is_unchanged (clipCount : Z) (hist : list Z) :
  length hist = 256%nat →
  Forall (λ b, 0 ≤ b ≤ clipCount) hist →
  sum_bins hist ≤ INT_MAX →
  1 ≤ clipCount ≤ INT_MAX →
  clip_histogram clipCount hist = Some (hist, 0) ∧
  clip_and_redistribute clipCount hist = Some hist.
Proof.
  intros Hlen Hall Hsum Hclip.
  assert (Hpos : Forall (λ b, 0 ≤ b) hist).
  { eapply Forall_impl; [exact Hall|]. simpl. intros b Hb. lia. }
  assert (Hle : Forall (λ b, b ≤ clipCount) hist).
  { eapply Forall_impl; [exact Hall|]. simpl. intros b Hb. lia. }
  destruct (clip_histogram_spec clipCount hist Hlen Hpos Hsum Hclip)
    as (excess & Hrun & Hex & Htot).
  rewrite (fmap_min_id _ _ Hle) in Hrun, Htot.
  assert (excess = 0) as -> by lia.
  split; [exact Hrun|].
  unfold clip_and_redistribute. rewrite Hrun. simpl.
  unfold redistribute.
  change (idiv 0 NUM_BINS) with 0. change (irem 0 NUM_BINS) with 0.
  rewrite (add_increment_pointwise 0 hist Hlen). simpl.
  assert (Hid : (λ h, iadd h 0) <$> hist = hist).
  { apply list_eq. intros j. rewrite list_lookup_fmap.
    destruct (hist !! j) as [h|] eqn:Hj; [|done]. simpl. f_equal.
    pose proof (sum_bins_lookup_le _ _ _ Hpos Hj).
    rewrite iadd_id; [lia|]. apply is_int_between. lia. }
  rewrite Hid. reflexivity.
Qed.

Lemma histogram_within_limit_is_unchanged_witness :
  clip_and_redistribute 64 (uniform_histogram 7 64)
    = Some (uniform_histogram 7 64).
Proof.
  apply (histogram_within_limit_is_unchanged 64 (uniform_histogram 7 64)).
  - apply uniform_histogram_length.
  - apply (bool_decide_unpack _). vm_compute. reflexivity.
  - vm_compute. discriminate.
  - unfold INT_MAX. lia.
Defined.

(** X9. Lines 57-73, bin by bin: after clip and redistribute the bin
    that held [h] holds [min(clipCount, h) + excess / 256], plus one if
    it is one of the [excess mod 256] bins of the remainder; no bin
    exceeds [clipCount + excess / 256 + 1]. *)
Theorem redistributed_bins_are_bounded (clipCount : Z) (hist : list Z) :
  length hist = 256%nat →
  Forall (λ b, 0 ≤ b) hist →
  sum_bins hist ≤ INT_MAX →
  1 ≤ clipCount ≤ INT_MAX →
  ∃ excess hist',
    clip_histogram clipCount hist = Some (Z.min clipCount <$> hist, excess) ∧
    clip_and_redistribute clipCount hist = Some hist' ∧
    ∀ (j : nat) (h : Z), hist !! j = Some h →
      ∃ h',
        hist' !! j = Some h' ∧
        h' = Z.min clipCount h + excess / 256 +
             (if decide (Z.of_nat j ∈ remainder_bins (excess `mod` 256))
              then 1 else 0) ∧
        h' ≤ clipCount + excess / 256 + 1.
Proof.
  intros Hlen Hpos Hsum Hclip.
  destruct (clip_histogram_spec clipCount hist Hlen Hpos Hsum Hclip)
    as (excess & Hrun & Hex & Htot).
  set (clipped := Z.min clipCount <$> hist) in *.
  assert (Hlen' : length clipped = 256%nat)
    by (unfold clipped; by rewrite length_fmap).
  assert (Hpos' : Forall (λ b, 0 ≤ b) clipped).
  { unfold clipped. apply Forall_fmap. eapply Forall_impl; [exact Hpos|].
    simpl. intros b Hb. lia. }
  pose proof (sum_bins_nonneg _ Hpos') as Hnn.
  pose proof (Z.div_mod excess 256 ltac:(lia)) as Hdm.
  pose proof (Z.mod_pos_bound excess 256 ltac:(lia)) as Hmod.
  assert (Hdiv : 0 ≤ excess / 256) by (apply Z.div_pos; lia).
  set (hist1 := (λ h, iadd h (excess / 256)) <$> clipped).
  assert (Hlen1 : length hist1 = 256%nat)
    by (unfold hist1; by rewrite length_fmap).
  destruct (distribute_remainder_pointwise (excess `mod` 256) hist1 Hmod Hlen1)
    as (hist' & Hdist & _ & Hpt).
  exists excess, hist'. split; [exact Hrun|]. split.
  { unfold clip_and_redistribute. rewrite Hrun. simpl. unfold redistribute.
    unfold NUM_BINS.
    rewrite idiv_id, irem_id by (try apply is_int_between; lia).
    rewrite (add_increment_pointwise _ clipped Hlen'). simpl. exact Hdist. }
  intros j h Hj.
  assert (Hc : clipped !! j = Some (Z.min clipCount h)).
  { unfold clipped. by rewrite list_lookup_fmap, Hj. }
  pose proof (sum_bins_lookup_le _ _ _ Hpos' Hc) as Hcle.
  assert (H1 : hist1 !! j = Some (Z.min clipCount h + excess / 256)).
  { unfold hist1. rewrite list_lookup_fmap, Hc. simpl. f_equal.
    apply iadd_id, is_int_between. lia. }
  rewrite (Hpt _ _ H1).
  case_decide as Hin.
  - assert (0 < excess `mod` 256).
    { destruct (decide (excess `mod` 256 = 0)) as [Hz|]; [|lia].
      rewrite Hz, remainder_bins_empty in Hin.
      by apply not_elem_of_nil in Hin. }
    rewrite iadd_id by (apply is_int_between; lia).
    eexists. split; [reflexivity|]. split; lia.
  - eexists. split; [reflexivity|]. split; lia.
Qed.

Lemma redistributed_bins_are_bounded_witness :
  ∃ excess hist',
    clip_and_redistribute 1 (uniform_histogram 7 64) = Some hist' ∧
    ∃ h', hist' !! 7%nat = Some h' ∧ h' ≤ 1 + excess / 256 + 1.
Proof.
  destruct (redistributed_bins_are_bounded 1 (uniform_histogram 7 64))
    as (excess & hist' & _ & Hrun & Hpt).
  - apply uniform_histogram_length.
  - apply uniform_histogram_nonneg. lia.
  - vm_compute. discriminate.
  - unfold INT_MAX. lia.
  - exists excess, hist'. split; [exact Hrun|].
    destruct (Hpt 7%nat 64) as (h' & Hh' & _ & Hle);
      [vm_compute; reflexivity|].
    exists h'. split; [exact Hh' | exact Hle].
Defined.

(** X10. Line 81: while [numPixelsPerTile * 255] fits an [int], that is
    for tiles of at most 8421504 pixels, the entry computed in [int]
    arithmetic for a cumulative sum of [[0, numPixelsPerTile]] is the
    exact quotient [cumSum * 255 / numPixelsPerTile] clamped to
    [[0, 255]]. *)
Theorem cdf_entry_agrees_with_exact_clamp (cumSum numPixelsPerTile : Z) :
  0 ≤ cumSum ≤ numPixelsPerTile →
  0 < numPixelsPerTile →
  numPixelsPerTile * 255 ≤ INT_MAX →
  cdf_entry cumSum numPixelsPerTile =
    clamp_exact (cumSum * 255 / numPixelsPerTile) ∧
  cdf_entry cumSum numPixelsPerTile = cumSum * 255 / numPixelsPerTile.
Proof.
  intros Hc Hn Hfit.
  rewrite (cdf_entry_exact _ _ Hc Hn Hfit). split; [reflexivity|].
  unfold clamp_exact.
  assert (0 ≤ cumSum * 255 / numPixelsPerTile) by (apply Z.div_pos; nia).
  assert (cumSum * 255 / numPixelsPerTile ≤ 255).
  { apply Z.div_le_upper_bound; nia. }
  lia.
Qed.

Lemma cdf_entry_agrees_with_exact_clamp_witness :
  cdf_entry 32 64 = 32 * 255 / 64.
Proof.
  apply (cdf_entry_agrees_with_exact_clamp 32 64); unfold INT_MAX; lia.
Defined.

(** X11. Lines 46-82 on the real path of a tile: for a valid input
    whose tiles hold at most 8421504 pixels ([numPixelsPerTile * 255]
    fits an [int]) the lookup table of every tile of the grid is
    computed without fault, is non-decreasing, holds bytes only and ends
    in 255, whatever the clip count. *)
Theorem small_tile_table_is_monotone (data : list Z)
    (width height tilesX tilesY clipCount ty tx : Z) :
  valid_input data width height tilesX tilesY →
  1 ≤ clipCount ≤ INT_MAX →
  width / tilesX * (height / tilesY) * 255 ≤ INT_MAX →
  0 ≤ ty < tilesY → 0 ≤ tx < tilesX →
  ∃ table,
    tile_table data width (width / tilesX) (height / tilesY)
      (width / tilesX * (height / tilesY)) clipCount ty tx = Some table ∧
    monotone table ∧ Forall is_u8 table ∧ table !! 255%nat = Some 255.
Proof.
  intros Hvalid Hclip Hfit Hty Htx.
  pose proof (tiles_cover_width _ _ _ _ _ Hvalid) as HcW.
  pose proof (tiles_cover_height _ _ _ _ _ Hvalid) as HcH.
  pose proof (tile_area_bounds _ _ _ _ _ Hvalid) as [Hpos Harea].
  destruct Hvalid.
  destruct (tile_start_bounds tilesX (width / tilesX) width tx)
    as [Hx0 Hx1]; [lia | lia | lia |].
  destruct (tile_start_bounds tilesY (height / tilesY) height ty)
    as [Hy0 Hy1]; [lia | lia | lia |].
  unfold tile_table.
  rewrite (imul_id tx), (imul_id ty) by (apply is_int_between; nia).
  destruct (build_histogram_spec data width (tx * (width / tilesX))
              (ty * (height / tilesY)) (width / tilesX) (height / tilesY))
    as (hist & Hhist & Hl & Hp & Hs); try assumption; try lia.
  { rewrite valid_length0, (Z.mul_comm width).
    apply Z.mul_le_mono_nonneg_r; lia. }
  destruct (clip_and_redistribute_spec clipCount hist)
    as (hist' & Hclipped & Hl' & Hp' & Hs'); try assumption; try lia.
  rewrite Hhist, bind_Some, Hclipped, bind_Some.
  apply tile_cdf_monotone; try assumption; lia.
Qed.

Lemma small_tile_table_is_monotone_witness :
  ∃ table,
    tile_table [100; 100; 100; 100] 2 (2 / 2) (2 / 2) (2 / 2 * (2 / 2)) 1 0 0
      = Some table ∧
    monotone table ∧ Forall is_u8 table ∧ table !! 255%nat = Some 255.
Proof.
  apply (small_tile_table_is_monotone [100; 100; 100; 100] 2 2 2 2 1 0 0
           half_value_image_valid); unfold INT_MAX; try lia.
  vm_compute. discriminate.
Defined.

(** X12. Lines 44-84: on every valid input, also one with a single
    tile along an axis, step 1 runs to its end without fault, keeps the
    size of the table, and leaves in it, for every tile of the grid, the
    lookup table of that tile at the offset [(ty * tilesX + tx) * 256];
    the previous content of the table plays no part. *)
Theorem step_one_fills_every_tile (data : list Z)
    (width height tilesX tilesY clipCount : Z) (cdfs : list Z) :
  valid_input data width height tilesX tilesY →
  1 ≤ clipCount ≤ INT_MAX →
  Z.of_nat (length cdfs) = tilesX * tilesY * 256 →
  ∃ cdfs',
    build_cdfs data width tilesX tilesY (width / tilesX) (height / tilesY)
      (width / tilesX * (height / tilesY)) clipCount cdfs = Some cdfs' ∧
    length cdfs' = length cdfs ∧
    ∀ ty tx, 0 ≤ ty < tilesY → 0 ≤ tx < tilesX →
      tile_filled data width tilesX (width / tilesX) (height / tilesY)
        (width / tilesX * (height / tilesY)) clipCount cdfs' ty tx.
Proof.
  intros Hvalid Hclip Hlen.
  exact (build_cdfs_spec data width height tilesX tilesY clipCount
           Hvalid Hclip cdfs Hlen).
Qed.

Lemma step_one_fills_every_tile_witness :
  ∃ cdfs',
    build_cdfs [10; 20; 30] 3 2 1 (3 / 2) (1 / 1) (3 / 2 * (1 / 1)) 1
      (replicate 512 7) = Some cdfs' ∧
    length cdfs' = length (replicate 512 7) ∧
    ∀ ty tx, 0 ≤ ty < 1 → 0 ≤ tx < 2 →
      tile_filled [10; 20; 30] 3 2 (3 / 2) (1 / 1) (3 / 2 * (1 / 1)) 1
        cdfs' ty tx.
Proof.
  apply (step_one_fills_every_tile [10; 20; 30] 3 1 2 1 1 (replicate 512 7)
           row_of_tiles_image_valid).
  - unfold INT_MAX. lia.
  - vm_compute. reflexivity.
Defined.

(** The call on a valid input, stage by stage, with the sizes
    evaluated. *)
Lemma applyCLAHE_stages (data : list Z) (width height tilesX tilesY : Z)
    (clipLimit : float) :
  valid_input data width height tilesX tilesY →
  applyCLAHE (Some data) width height tilesX tilesY clipLimit =
    (cdfs ← build_cdfs data width tilesX tilesY
               (width / tilesX) (height / tilesY)
               (width / tilesX * (height / tilesY))
               (clip_count clipLimit (width / tilesX * (height / tilesY)))
               (replicate (Z.to_nat (tilesX * tilesY * 256)) 0);
     output ← reconstruct data cdfs width height tilesX tilesY
                (width / tilesX) (height / tilesY)
                (replicate (Z.to_nat (width * height)) 0);
     buf' ← memcpy data output (width * height);
     Some (Effect (Some buf') [tilesX * tilesY * 256; width * height])).
Proof.
  intros Hvalid.
  assert (Htotal : imul tilesX tilesY = tilesX * tilesY).
  { destruct Hvalid. apply imul_id, is_int_between. nia. }
  assert (Htable : imul (tilesX * tilesY) NUM_BINS = tilesX * tilesY * 256).
  { destruct Hvalid. apply imul_id, is_int_between. unfold NUM_BINS. nia. }
  assert (Hsize : imul width height = width * height).
  { destruct Hvalid. apply imul_id, is_int_between. nia. }
  assert (Hvec : ∀ n, 0 ≤ n → vector n = Some (replicate (Z.to_nat n) 0)).
  { intros n Hn. unfold vector. by rewrite decide_True. }
  unfold applyCLAHE.
  rewrite (idiv_width data width height tilesX tilesY Hvalid).
  rewrite (idiv_height data width height tilesX tilesY Hvalid).
  rewrite (imul_tile_area data width height tilesX tilesY Hvalid).
  rewrite !decide_False by (destruct Hvalid; lia).
  rewrite Htotal, Htable, Hsize.
  rewrite !Hvec by (destruct Hvalid; nia).
  rewrite bind_Some.
  destruct (build_cdfs _ _ _ _ _ _ _ _ _) as [cdfs|]; [|reflexivity].
  rewrite !bind_Some. reflexivity.
Qed.

(** X13. Lines 44-127: a pixel outside the tiled area
    [[0, tilesX * tileW) x [0, tilesY * tileH)] influences no output
    pixel but its own. Two valid buffers with at least two tiles along
    both axes that agree inside the tiled area are both processed
    without fault, and their outputs agree at every position where the
    two inputs agree. *)
Theorem outside_pixels_affect_only_themselves (data data' : list Z)
    (width height tilesX tilesY : Z) (clipLimit : float) :
  valid_input data width height tilesX tilesY →
  valid_input data' width height tilesX tilesY →
  2 ≤ tilesX → 2 ≤ tilesY →
  (∀ x y, 0 ≤ x < tilesX * (width / tilesX) →
          0 ≤ y < tilesY * (height / tilesY) →
     data' !! Z.to_nat (y * width + x) = data !! Z.to_nat (y * width + x)) →
  ∃ out out',
    applyCLAHE (Some data) width height tilesX tilesY clipLimit =
      Some (Effect (Some out) [tilesX * tilesY * 256; width * height]) ∧
    applyCLAHE (Some data') width height tilesX tilesY clipLimit =
      Some (Effect (Some out') [tilesX * tilesY * 256; width * height]) ∧
    ∀ x y, 0 ≤ x < width → 0 ≤ y < height →
      data' !! Z.to_nat (y * width + x) = data !! Z.to_nat (y * width + x) →
      out' !! Z.to_nat (y * width + x) = out !! Z.to_nat (y * width + x).
Proof.
  intros Hvalid Hvalid' HtwoX HtwoY Hagree.
  pose proof (clip_count_bounds clipLimit
                (width / tilesX * (height / tilesY))) as Hclip.
  rewrite !applyCLAHE_stages by assumption.
  rewrite (uncovered_pixels_not_counted data data' width height tilesX tilesY
             _ _ Hvalid Hagree).
  destruct (build_cdfs_spec data width height tilesX tilesY _
              Hvalid Hclip (replicate (Z.to_nat (tilesX * tilesY * 256)) 0))
    as (cdfs & Hstep1 & Hlc & _).
  { rewrite length_replicate. destruct Hvalid. nia. }
  rewrite length_replicate in Hlc.
  assert (Hcdfs : Z.of_nat (length cdfs) = tilesX * tilesY * 256)
    by (destruct Hvalid; nia).
  rewrite Hstep1, !bind_Some.
  destruct (reconstruct_spec data width height tilesX tilesY cdfs Hvalid
              Hcdfs HtwoX HtwoY (replicate (Z.to_nat (width * height)) 0))
    as (out & Hstep2 & Hlo & Hpixels).
  { rewrite length_replicate. destruct Hvalid. nia. }
  destruct (reconstruct_spec data' width height tilesX tilesY cdfs Hvalid'
              Hcdfs HtwoX HtwoY (replicate (Z.to_nat (width * height)) 0))
    as (out' & Hstep2' & Hlo' & Hpixels').
  { rewrite length_replicate. destruct Hvalid. nia. }
  rewrite length_replicate in Hlo, Hlo'.
  exists out, out'.
  rewrite Hstep2, Hstep2', !bind_Some.
  rewrite !memcpy_whole by (destruct Hvalid, Hvalid'; lia).
  split; [reflexivity|]. split; [reflexivity|].
  intros x y Hx Hy Hsame.
  destruct (Hpixels x y Hx Hy) as (pixel & v & Hd & Hint & Ho).
  destruct (Hpixels' x y Hx Hy) as (pixel' & v' & Hd' & Hint' & Ho').
  rewrite Hsame, Hd in Hd'. injection Hd' as <-.
  rewrite Hint in Hint'. injection Hint' as <-.
  by rewrite Ho, Ho'.
Qed.

Lemma ragged_image_valid (b : Z) :
  is_u8 b → valid_input [1; 2; 3; 4; 5; 6; 7; 8; b] 3 3 2 2.
Proof.
  intros Hb.
  constructor; try (vm_compute; (reflexivity || discriminate)).
  repeat (apply Forall_cons_2; [unfold is_u8 in *; lia|]).
  apply Forall_nil_2.
Qed.

Lemma outside_pixels_affect_only_themselves_witness :
  ∃ out out',
    applyCLAHE (Some [1; 2; 3; 4; 5; 6; 7; 8; 9]) 3 3 2 2 2 =
      Some (Effect (Some out) [2 * 2 * 256; 3 * 3]) ∧
    applyCLAHE (Some [1; 2; 3; 4; 5; 6; 7; 8; 200]) 3 3 2 2 2 =
      Some (Effect (Some out') [2 * 2 * 256; 3 * 3]) ∧
    ∀ x y, 0 ≤ x < 3 → 0 ≤ y < 3 →
      [1; 2; 3; 4; 5; 6; 7; 8; 200] !! Z.to_nat (y * 3 + x) =
        [1; 2; 3; 4; 5; 6; 7; 8; 9] !! Z.to_nat (y * 3 + x) →
      out' !! Z.to_nat (y * 3 + x) = out !! Z.to_nat (y * 3 + x).
Proof.
  apply (outside_pixels_affect_only_themselves
           [1; 2; 3; 4; 5; 6; 7; 8; 9] [1; 2; 3; 4; 5; 6; 7; 8; 200]
           3 3 2 2 2).
  - apply ragged_image_valid. unfold is_u8. lia.
  - apply ragged_image_valid. unfold is_u8. lia.
  - lia.
  - lia.
  - intros x y Hx Hy.
    change (2 * (3 / 2)) with 2 in Hx, Hy.
    assert (Hxs : x = 0 ∨ x = 1) by lia.
    assert (Hys : y = 0 ∨ y = 1) by lia.
    destruct Hxs as [-> | ->], Hys as [-> | ->]; reflexivity.
Defined.

(** X14. Lines 103-118: every valid call with a single row of tiles
    ([tilesY = 1]) is undefined, whatever the image, its size, the
    number of tile columns and the clip limit: at the first pixel
    [ty1 = 1] and the fetch for tile row 1 lies beyond the table. *)
Theorem single_tile_row_call_is_undefined (data : list Z)
    (width height tilesX : Z) (clipLimit : float) :
  valid_input data width height tilesX 1 →
  applyCLAHE (Some data) width height tilesX 1 clipLimit = None.
Proof. apply single_tile_row_is_undefined. Qed.

Lemma single_tile_row_call_is_undefined_witness :
  applyCLAHE (Some [100; 100; 100; 100]) 4 1 4 1 2 = None.
Proof.
  apply single_tile_row_call_is_undefined.
  constructor; try (vm_compute; (reflexivity || discriminate)).
  apply (bool_decide_unpack _). vm_compute. reflexivity.
Defined.

Lemma first_tile_pair (f : float) : first_tile f 2 = 0.
Proof. unfold first_tile. change (isub 2 2) with 0. lia. Qed.

(** X15. Lines 103-118: every valid call with a single column of two
    tiles ([tilesX = 1], [tilesY = 2]) is undefined, whatever the image
    and the clip limit: at the first pixel [tx1 = ty1 = 1] and the fetch
    of [v11] uses the flat index [512 + pixel] of a table of 512
    entries. *)
Theorem single_tile_column_of_two_is_undefined (data : list Z)
    (width height : Z) (clipLimit : float) :
  valid_input data width height 1 2 →
  applyCLAHE (Some data) width height 1 2 clipLimit = None.
Proof.
  intros Hvalid.
  pose proof (clip_count_bounds clipLimit (width / 1 * (height / 2)))
    as Hclip.
  rewrite applyCLAHE_stages by assumption.
  destruct (build_cdfs_spec data width height 1 2 _
              Hvalid Hclip (replicate (Z.to_nat (1 * 2 * 256)) 0))
    as (cdfs & Hstep1 & Hlc & _); [reflexivity|].
  rewrite Hstep1, bind_Some.
  assert (Hrec : reconstruct data cdfs width height 1 2
                   (width / 1) (height / 2)
                   (replicate (Z.to_nat (width * height)) 0) = None);
    [|by rewrite Hrec].
  unfold reconstruct.
  apply for_loop_first_fails; [destruct Hvalid; lia|].
  apply for_loop_first_fails; [destruct Hvalid; lia|].
  change (iadd (imul 0 width) 0) with 0.
  destruct (vget_in_bounds data 0) as (pixel & -> & Hpix);
    [destruct Hvalid; nia|].
  assert (Hu8 : is_u8 pixel).
  { pose proof (valid_bytes _ _ _ _ _ Hvalid) as Hb.
    rewrite Forall_forall in Hb. apply Hb. by eapply list_elem_of_lookup_2. }
  rewrite bind_Some. unfold interpolate.
  rewrite first_tile_single, first_tile_pair. change (iadd 0 1) with 1.
  assert (Hout : vget cdfs (cdf_index 1 1 1 pixel) = None).
  { unfold cdf_index.
    change (tile_base 1 1 1) with 512.
    rewrite iadd_id by int_range.
    apply vget_None_above. rewrite Hlc. rewrite length_replicate.
    unfold is_u8 in Hu8. lia. }
  rewrite Hout.
  destruct (vget cdfs (cdf_index 1 0 0 pixel)) as [v00|]; [|reflexivity].
  rewrite bind_Some.
  destruct (vget cdfs (cdf_index 1 0 1 pixel)) as [v01|]; [|reflexivity].
  rewrite bind_Some.
  destruct (vget cdfs (cdf_index 1 1 0 pixel)) as [v10|]; reflexivity.
Qed.

Lemma single_tile_column_of_two_is_undefined_witness :
  applyCLAHE (Some [10; 20; 30; 40]) 2 2 1 2 2 = None.
Proof.
  apply single_tile_column_of_two_is_undefined.
  exact column_of_tiles_image_valid.
Defined.

(** X16. Lines 103-117 with a single column of tiles: [tx0] is 0
    whatever the pixel, and the entry fetched as the right neighbour
    [v01], of tile [(ty0, 1)], is the entry fetched as the lower
    neighbour [v10], of tile [(ty0 + 1, 0)]: both use the flat index
    [(ty0 + 1) * 256 + pixel]. *)
Theorem single_tile_column_right_is_lower (f : float) (ty0 pixel : Z) :
  0 ≤ ty0 → (ty0 + 2) * 256 ≤ INT_MAX → is_u8 pixel →
  first_tile f 1 = 0 ∧
  cdf_index 1 ty0 (iadd (first_tile f 1) 1) pixel =
    cdf_index 1 (iadd ty0 1) (first_tile f 1) pixel ∧
  cdf_index 1 ty0 (iadd (first_tile f 1) 1) pixel = (ty0 + 1) * 256 + pixel.
Proof.
  intros Hty Hfit Hp. rewrite first_tile_single.
  split; [reflexivity|].
  change (iadd 0 1) with 1.
  unfold cdf_index, tile_base, NUM_BINS.
  rewrite (iadd_id ty0 1) by int_range.
  rewrite !(imul_id _ 1) by int_range.
  rewrite !(iadd_id (_ * 1)) by int_range.
  rewrite !imul_id by int_range.
  rewrite !iadd_id by int_range.
  split; lia.
Qed.

Lemma single_tile_column_right_is_lower_witness :
  cdf_index 1 0 (iadd (first_tile 0 1) 1) 10 =
    cdf_index 1 (iadd 0 1) (first_tile 0 1) 10.
Proof.
  apply (single_tile_column_right_is_lower 0 0 10);
    unfold is_u8, INT_MAX; lia.
Defined.

(** X17. Lines 90-127 on a valid input with at least two tiles along
    both axes: the call returns, and the byte stored at [(x, y)] is the
    clamped, truncated bilinear blend of the entries, at the original
    intensity of the pixel, of the lookup tables of the four tiles
    [(ty0, tx0)], [(ty0, tx0 + 1)], [(ty0 + 1, tx0)],
    [(ty0 + 1, tx0 + 1)] of the original buffer, with [tx0] and [ty0]
    inside the grid. *)
Theorem stored_byte_is_blend_of_four_tables (data : list Z)
    (width height tilesX tilesY : Z) (clipLimit : float) :
  valid_input data width height tilesX tilesY →
  2 ≤ tilesX → 2 ≤ tilesY →
  let tileW := width / tilesX in
  let tileH := height / tilesY in
  let numPixelsPerTile := tileW * tileH in
  let clipCount := clip_count clipLimit numPixelsPerTile in
  let table := tile_table data width tileW tileH numPixelsPerTile clipCount in
  ∃ out,
    applyCLAHE (Some data) width height tilesX tilesY clipLimit =
      Some (Effect (Some out) [tilesX * tilesY * 256; width * height]) ∧
    length out = length data ∧
    ∀ x y, 0 ≤ x < width → 0 ≤ y < height →
      let fx := tile_coord x tileW in
      let fy := tile_coord y tileH in
      let tx0 := first_tile fx tilesX in
      let ty0 := first_tile fy tilesY in
      let ax := dmax 0 (dmin 1 (fx - of_int tx0)) in
      let ay := dmax 0 (dmin 1 (fy - of_int ty0)) in
      0 ≤ tx0 ≤ tilesX - 2 ∧ 0 ≤ ty0 ≤ tilesY - 2 ∧
      ∃ pixel t00 t01 t10 t11 v00 v01 v10 v11,
        data !! Z.to_nat (y * width + x) = Some pixel ∧
        table ty0 tx0 = Some t00 ∧ t00 !! Z.to_nat pixel = Some v00 ∧
        table ty0 (tx0 + 1) = Some t01 ∧ t01 !! Z.to_nat pixel = Some v01 ∧
        table (ty0 + 1) tx0 = Some t10 ∧ t10 !! Z.to_nat pixel = Some v10 ∧
        table (ty0 + 1) (tx0 + 1) = Some t11 ∧
        t11 !! Z.to_nat pixel = Some v11 ∧
        let top := (of_int v00 * (1 - ax) + of_int v01 * ax)%float in
        let bottom := (of_int v10 * (1 - ax) + of_int v11 * ax)%float in
        let value := (top * (1 - ay) + bottom * ay)%float in
        out !! Z.to_nat (y * width + x) =
          Some (double_to_int (dmax 0 (dmin 255 value))) ∧
        0 ≤ double_to_int (dmax 0 (dmin 255 value)) ≤ 255.
Proof. apply reconstruction_formula. Qed.

Lemma stored_byte_is_blend_of_four_tables_witness :
  ∃ out,
    applyCLAHE (Some [100; 100; 100; 100]) 2 2 2 2 2 =
      Some (Effect (Some out) [2 * 2 * 256; 2 * 2]) ∧
    length out = 4%nat.
Proof.
  destruct (stored_byte_is_blend_of_four_tables [100; 100; 100; 100]
              2 2 2 2 2 half_value_image_valid)
    as (out & Hrun & Hlen & _); [lia | lia |].
  exists out. split; [exact Hrun | exact Hlen].
Defined.
